(** * ocrmypdf-paddleocr: engine cache, retry policy and result assembly

    A shallow embedding of [src/ocrmypdf_paddleocr/engine.py] and
    [lang_map.py].

    Modelling conventions.
    - Python floats holding pixel coordinates, scores and angles are exact
      rationals ([Q]).  Finite doubles embed in [Q] with the same order, so
      [<=], [<], [min], [max] and [abs] agree with the source; NaN and the
      infinities are outside the model, and [float(x)] is the identity.
    - Python exceptions are an explicit [outcome]; code that touches the
      process (the environment, the two module globals, the engine) runs in
      the state-and-exception monad [py].
    - PaddleOCR, its orientation classifier, PIL and [math.atan2] are not part
      of the repository: they are Section variables, so every theorem holds
      for every behaviour of these collaborators. *)

From Stdlib Require Import Ascii String QArith Qabs Lqa.
From stdpp Require Import gmap strings list fin_maps sorting.

Set Default Proof Using "Type".
Local Open Scope string_scope.
Local Open Scope list_scope.

(** ** Exceptions and the [py] monad *)

(** The exception classes the source distinguishes.  [KeyError] and
    [RuntimeError] stand for the class and its subclasses, which is what an
    [except] clause matches. *)
Inductive exn : Type :=
  | KeyError
  | RuntimeError
  | IndexError
  | ValueError
  | OtherException (name : string).

Global Instance exn_eq_dec : EqDecision exn.
Proof. solve_decision. Defined.

Inductive outcome (A : Type) : Type :=
  | Return (a : A)
  | Raise (e : exn).
Arguments Return {A} a.
Arguments Raise {A} e.

Definition outcome_bind {A B} (f : A → outcome B) (m : outcome A) : outcome B :=
  match m with
  | Return a => f a
  | Raise e => Raise e
  end.

Global Instance outcome_ret : MRet outcome := λ A a, Return a.
Global Instance outcome_mbind : MBind outcome := λ A B f m, outcome_bind f m.

(** The engine object: [eng_id] is the object identity (the ordinal of the
    constructor call that produced it), the other fields are the keyword
    arguments it was built with. *)
Record engine : Type := mkEngine {
  eng_id : nat;
  eng_lang : string;
  use_doc_orientation_classify : bool;
  use_doc_unwarping : bool;
  use_textline_orientation : bool
}.

Global Instance engine_eq_dec : EqDecision engine.
Proof. solve_decision. Defined.

(** What the process did, in order. *)
Inductive event : Type :=
  | EvConstruct (e : engine)
  | EvConstructFailed (lang : string) (x : exn)
  | EvPredict (e : engine) (input : string) (return_word_box : bool)
  | EvLogDebug (msg : string).

Global Instance event_eq_dec : EqDecision event.
Proof. solve_decision. Defined.

(** Process state: [os.environ], the module globals [_paddle_engine] and
    [_paddle_lang], and the history of calls into PaddleOCR. *)
Record world : Type := mkWorld {
  environ : gmap string string;
  _paddle_engine : option engine;
  _paddle_lang : option string;
  constructions : nat;
  predictions : nat;
  events : list event
}.

Definition py (A : Type) : Type := world → outcome A * world.

Global Instance py_ret : MRet py := λ A a w, (Return a, w).
Global Instance py_bind : MBind py := λ A B f m w,
  match m w with
  | (Return a, w') => f a w'
  | (Raise e, w') => (Raise e, w')
  end.

Definition raise {A} (e : exn) : py A := λ w, (Raise e, w).

(** [try: body / except ...: handler]: [handler e] is [None] when no
    [except] clause matches [e].  An exception raised inside a handler is
    not handled by the sibling clauses. *)
Definition try_except {A} (body : py A) (handler : exn → option (py A)) : py A :=
  λ w, match body w with
       | (Return a, w') => (Return a, w')
       | (Raise e, w') =>
           match handler e with
           | Some h => h w'
           | None => (Raise e, w')
           end
       end.

Definition log_debug (msg : string) : py unit :=
  λ w, (Return (),
        mkWorld (environ w) (_paddle_engine w) (_paddle_lang w)
                (constructions w) (predictions w) (events w ++ [EvLogDebug msg])).

(** [os.environ.pop(key, None)] *)
Definition environ_pop (key : string) : py (option string) :=
  λ w, (Return (environ w !! key),
        mkWorld (delete key (environ w)) (_paddle_engine w) (_paddle_lang w)
                (constructions w) (predictions w) (events w)).

(** [os.environ[key] = value] *)
Definition environ_set (key value : string) : py unit :=
  λ w, (Return (),
        mkWorld (<[key := value]> (environ w)) (_paddle_engine w) (_paddle_lang w)
                (constructions w) (predictions w) (events w)).

(** ** lang_map.py *)

Definition _LANG_MAP : gmap string string :=
  list_to_map [
    ("eng", "en"); ("kor", "korean"); ("chi_sim", "ch");
    ("chi_tra", "chinese_cht"); ("jpn", "japan"); ("deu", "german");
    ("fra", "french"); ("spa", "es"); ("por", "pt"); ("ita", "it");
    ("rus", "ru"); ("ara", "ar"); ("hin", "hi"); ("vie", "vi");
    ("tha", "th"); ("tur", "tr"); ("ukr", "uk"); ("pol", "pl");
    ("nld", "nl"); ("nor", "no"); ("swe", "sv"); ("dan", "da");
    ("fin", "fi"); ("hun", "hu"); ("ces", "cs"); ("ron", "ro");
    ("bul", "bg"); ("hrv", "hr"); ("slk", "sk"); ("slv", "sl");
    ("ell", "el"); ("heb", "he"); ("ind", "id"); ("msa", "ms");
    ("tam", "ta"); ("tel", "te"); ("kan", "ka"); ("mar", "mr");
    ("nep", "ne"); ("ben", "bn"); ("urd", "ur"); ("fas", "fa");
    ("mya", "my"); ("khm", "km"); ("lao", "lo"); ("lat", "la");
    ("est", "et"); ("lav", "lv"); ("lit", "lt")
  ].

(** [_LANG_MAP.get(lang, lang)] *)
Definition tesseract_to_paddle (lang : string) : string :=
  default lang (_LANG_MAP !! lang).

(** The part of [OcrOptions] the engine reads. *)
Record OcrOptions : Type := mkOcrOptions {
  languages : list string
}.

(** [SUPPORTED_LANGUAGES = set(_LANG_MAP.keys())] *)
Definition SUPPORTED_LANGUAGES : gset string := dom _LANG_MAP.

(** [PaddleOcrEngine.languages(options)] *)
Definition PaddleOcrEngine_languages (options : OcrOptions) : gset string :=
  SUPPORTED_LANGUAGES.

(** ** __init__.py *)

(** The attribute of the host's options that [check_options] reads and
    writes; the host leaves it unset ([None]) or gives a number. *)
Record HostOptions : Type := mkHostOptions {
  jobs : option Z
}.

(** [check_options(options)]: the options afterwards and the lines logged
    at info level. *)
Definition check_options (options : HostOptions) : HostOptions * list string :=
  if decide (jobs options ≠ Some 1%Z)
  then (mkHostOptions (Some 1%Z),
        ["PaddleOCR: forcing jobs=1 (PaddlePaddle is not multi-process safe)"])
  else (options, []).

(** ** Strings *)

(** [str.isspace] on one character, for code points below 256. *)
Definition isspace (c : ascii) : bool :=
  let n := nat_of_ascii c in
  ((9 <=? n)%nat && (n <=? 13)%nat) || ((28 <=? n)%nat && (n <=? 32)%nat)
  || (n =? 133)%nat || (n =? 160)%nat.

Definition is_empty_string (s : string) : bool :=
  match s with
  | EmptyString => true
  | String _ _ => false
  end.

Fixpoint lstrip (s : string) : string :=
  match s with
  | EmptyString => EmptyString
  | String c r => if isspace c then lstrip r else s
  end.

Fixpoint rstrip (s : string) : string :=
  match s with
  | EmptyString => EmptyString
  | String c r =>
      let r' := rstrip r in
      if isspace c && is_empty_string r' then EmptyString else String c r'
  end.

(** [s.strip()] *)
Definition strip (s : string) : string := rstrip (lstrip s).

(** [sep.join(parts)] *)
Fixpoint join (sep : string) (parts : list string) : string :=
  match parts with
  | [] => ""
  | [p] => p
  | p :: rest => p +:+ sep +:+ join sep rest
  end.

Definition newline : string := String (ascii_of_nat 10) EmptyString.

Definition is_digit (c : ascii) : bool :=
  let n := nat_of_ascii c in (48 <=? n)%nat && (n <=? 57)%nat.

(** The blanks [int()] skips around a number, for code points below 256:
    the ASCII white space and the two Latin-1 spaces.  Unlike [str.strip],
    it does not skip the separators U+001C to U+001F. *)
Definition is_int_space (c : ascii) : bool :=
  let n := nat_of_ascii c in
  ((9 <=? n)%nat && (n <=? 13)%nat) || (n =? 32)%nat
  || (n =? 133)%nat || (n =? 160)%nat.

Fixpoint int_lstrip (s : string) : string :=
  match s with
  | EmptyString => EmptyString
  | String c r => if is_int_space c then int_lstrip r else s
  end.

Fixpoint int_rstrip (s : string) : string :=
  match s with
  | EmptyString => EmptyString
  | String c r =>
      let r' := int_rstrip r in
      if is_int_space c && is_empty_string r' then EmptyString else String c r'
  end.

(** Decimal digits with single underscores between them: a digit, then any
    number of times an optional underscore and a digit. *)
Fixpoint int_digits (acc : Z) (s : string) : option Z :=
  match s with
  | EmptyString => None
  | String c r =>
      if is_digit c
      then
        let acc' := (10 * acc + Z.of_nat (nat_of_ascii c - 48))%Z in
        match r with
        | EmptyString => Some acc'
        | String "_"%char r' => int_digits acc' r'
        | String _ _ => int_digits acc' r
        end
      else None
  end.

(** [int(s)] for a string of code points below 256: blanks around, an
    optional sign, then decimal digits with optional single underscores
    between them; anything else raises [ValueError]. *)
Definition py_int (s : string) : outcome Z :=
  let body (t : string) : outcome Z :=
    match int_digits 0 t with
    | Some v => Return v
    | None => Raise ValueError
    end in
  match int_rstrip (int_lstrip s) with
  | String "-"%char t => v ← body t; mret (- v)%Z
  | String "+"%char t => body t
  | t => body t
  end.

(** [l[i]] for [i >= 0] *)
Definition py_index {A} (l : list A) (i : nat) : outcome A :=
  match l !! i with
  | Some a => Return a
  | None => Raise IndexError
  end.

(** [d[key]] where a missing key is [None] *)
Definition py_getitem {A} (field : option A) : outcome A :=
  match field with
  | Some a => Return a
  | None => Raise KeyError
  end.

(** ** Geometry and the OCR tree *)

Global Instance Q_le_dec (x y : Q) : Decision (x <= y)%Q :=
  match Qlt_le_dec y x with
  | left H => right (Qlt_not_le _ _ H)
  | right H => left H
  end.

(** [x < y] on floats *)
Definition Qltb (x y : Q) : bool := negb (Qle_bool y x).

Definition point : Type := (Q * Q)%type.
(** A quad is four points, as in the source's docstring. *)
Definition quad : Type := (point * point * point * point)%type.
(** One row [x1, y1, x2, y2] of [rec_boxes]. *)
Definition box : Type := (Q * Q * Q * Q)%type.

Module BoundingBox.
Record t : Type := mk { left : Q; top : Q; right : Q; bottom : Q }.
End BoundingBox.

Inductive OcrClass : Type := PAGE | LINE | WORD.

#[warnings="-register-all"]
Inductive OcrElement : Type := mkOcrElement {
  ocr_class : OcrClass;
  bbox : option BoundingBox.t;
  text : option string;
  confidence : option Q;
  dpi : option Q;
  page_number : option Z;
  children : list OcrElement
}.

(** [page.children.append(line)] *)
Definition append_child (parent child : OcrElement) : OcrElement :=
  mkOcrElement (ocr_class parent) (bbox parent) (text parent) (confidence parent)
               (dpi parent) (page_number parent) (children parent ++ [child]).

Record OrientationConfidence : Type := mkOrientationConfidence {
  angle : Z;
  oc_confidence : Q
}.

(** [min(x :: rest)] and [max(x :: rest)]: the first extremal element wins. *)
Definition py_min (x : Q) (rest : list Q) : Q :=
  foldl (λ m y, if Qltb y m then y else m) x rest.
Definition py_max (x : Q) (rest : list Q) : Q :=
  foldl (λ m y, if Qltb m y then y else m) x rest.

Definition _quad_to_bbox (q : quad) : option BoundingBox.t :=
  let '(p1, p2, p3, p4) := q in
  let left := py_min (fst p1) [fst p2; fst p3; fst p4] in
  let right := py_max (fst p1) [fst p2; fst p3; fst p4] in
  let top := py_min (snd p1) [snd p2; snd p3; snd p4] in
  let bottom := py_max (snd p1) [snd p2; snd p3; snd p4] in
  if Qle_bool right left || Qle_bool bottom top then None
  else Some (BoundingBox.mk left top right bottom).

(** Lines 211-215 of [generate_ocr]: a row of [rec_boxes] becomes the line
    box, or the line is skipped. *)
Definition line_box_to_bbox (b : box) : option BoundingBox.t :=
  let '(x1, y1, x2, y2) := b in
  if Qle_bool x2 x1 || Qle_bool y2 y1 then None
  else Some (BoundingBox.mk x1 y1 x2 y2).

(** ** What the engine returns *)

(** One per-image result dictionary.  A key that is absent is [None];
    [extra_keys] says whether the dictionary holds keys other than these. *)
Record ocr_result : Type := mkOcrResult {
  rec_texts : option (list string);
  rec_scores : option (list Q);
  rec_boxes : option (list box);
  text_word : option (list (list string));
  text_word_region : option (list (list quad));
  dt_polys : option (list (list point));
  extra_keys : bool
}.

(** [not d] for a result dictionary *)
Definition dict_is_empty (d : ocr_result) : bool :=
  negb (extra_keys d)
  && bool_decide (rec_texts d = None) && bool_decide (rec_scores d = None)
  && bool_decide (rec_boxes d = None) && bool_decide (text_word d = None)
  && bool_decide (text_word_region d = None) && bool_decide (dt_polys d = None).

Definition is_nil {A} (l : list A) : bool :=
  match l with [] => true | _ :: _ => false end.

(** One result of the orientation classifier. *)
Record clf_result : Type := mkClfResult {
  label_names : option (list string);
  scores : option (list Q)
}.

(** What PIL reports for the page image. *)
Inductive dpi_info : Type :=
  | DpiTuple (x y : Q)
  | DpiScalar (x : Q).

Record Image : Type := mkImage {
  size : Z * Z;
  info_dpi : option dpi_info
}.

(** ** Concrete processes and engine behaviours used in the examples *)

Module Samples.

Definition fresh_world : world := mkWorld ∅ None None 0 0 [].

(** The sibling Tesseract plugin has set [OMP_THREAD_LIMIT=1]. *)
Definition limited_world : world :=
  mkWorld {[ "OMP_THREAD_LIMIT" := "1" ]} None None 0 0 [].

Definition init_ok : nat → string → option exn := λ _ _, None.

(** PaddleOCR rejects a language it has no model for. *)
Definition init_rejects : nat → string → option exn := λ _ _, Some ValueError.

Definition opts_eng : OcrOptions := mkOcrOptions ["eng"].
Definition opts_kor : OcrOptions := mkOcrOptions ["kor"].
Definition opts_xyz : OcrOptions := mkOcrOptions ["xyz"].

Definition engine_en : engine := mkEngine 0 "en" false false true.
Definition engine_korean : engine := mkEngine 1 "korean" false false true.

Definition page_image : string → Image :=
  λ _, mkImage (612, 792)%Z (Some (DpiTuple 300 300)).

(** One recognised line, no word-level detail. *)
Definition hello_result : ocr_result :=
  mkOcrResult (Some ["Hello World"]) (Some [0.98%Q]) (Some [(10, 10, 200, 40)%Q])
              None None
              (Some [[(10, 10); (200, 10); (200, 40); (10, 40)]%Q]) true.

(** The native predictor is stale on the first call of the process. *)
Definition predict_stale_once
  : nat → engine → string → bool → outcome (list ocr_result) :=
  λ n _ _ _, match n with
             | O => Raise RuntimeError
             | S _ => Return [hello_result]
             end.

(** The word-box path fails on this page; the plain path answers. *)
Definition predict_word_box_bug
  : nat → engine → string → bool → outcome (list ocr_result) :=
  λ _ _ _ return_word_box,
    if return_word_box then Raise KeyError else Return [hello_result].

(** An engine whose result handling fails on this page on either path. *)
Definition predict_key_error
  : nat → engine → string → bool → outcome (list ocr_result) :=
  λ _ _ _ _, Raise KeyError.

Definition hello_page : OcrElement :=
  mkOcrElement PAGE (Some (BoundingBox.mk 0 0 (inject_Z 612) (inject_Z 792)))
    None None (Some 300%Q) (Some 0%Z)
    [mkOcrElement LINE (Some (BoundingBox.mk 10 10 200 40)) None None None None
       [mkOcrElement WORD (Some (BoundingBox.mk 10 10 200 40))
          (Some "Hello World") (Some 0.98%Q) None None []]].

(** The classifier's answer for a page lying on its side. *)
Definition clf_sideways : string → outcome (list clf_result) :=
  λ _, Return [mkClfResult (Some ["90"; "0"; "270"; "180"])
                           (Some [0.9; 0.06; 0.03; 0.01]%Q)].

(** A rational stand-in for [math.degrees(math.atan2(dy, dx))], exact for
    the horizontal and the 45-degree edges used below. *)
Definition slope_degrees (dy dx : Q) : Q := (dy / dx * 45)%Q.

(** Four detections: a level edge, a 45-degree edge, a near-vertical edge
    and a single point. *)
Definition skew_result : ocr_result :=
  mkOcrResult None None None None None
    (Some [[(0, 0); (10, 0); (10, 5); (0, 5)];
           [(0, 0); (10, 10); (5, 15); (-5, 5)];
           [(0, 0); (0.5, 3)];
           [(5, 5)]]%Q)
    true.

Definition predict_skew : nat → engine → string → bool → outcome (list ocr_result) :=
  λ _ _ _ _, Return [skew_result].

Definition quad_hello : quad := ((10, 10), (90, 10), (90, 40), (10, 40))%Q.
Definition quad_gap : quad := ((90, 10), (100, 10), (100, 40), (90, 40))%Q.
Definition quad_world : quad := ((100, 12), (200, 10), (200, 38), (100, 40))%Q.
Definition quad_flat : quad := ((10, 90), (60, 90), (60, 90), (10, 90))%Q.

(** Three recognised lines with word-level detail: two words and a blank
    token; a blank line; a line whose only quad is degenerate. *)
Definition words_result : ocr_result :=
  mkOcrResult (Some ["Hello World"; "   "; "x"])
              (Some [0.98; 0.5; 0.7]%Q)
              (Some [(10, 10, 200, 40); (10, 50, 200, 80); (10, 90, 60, 120)]%Q)
              (Some [[" Hello"; " "; "World "]; []; ["x"]])
              (Some [[quad_hello; quad_gap; quad_world]; []; [quad_flat]])
              None true.

Definition predict_words : nat → engine → string → bool → outcome (list ocr_result) :=
  λ _ _ _ _, Return [words_result].

Definition words_page : OcrElement :=
  mkOcrElement PAGE (Some (BoundingBox.mk 0 0 (inject_Z 612) (inject_Z 792)))
    None None (Some 300%Q) (Some 0%Z)
    [mkOcrElement LINE (Some (BoundingBox.mk 10 10 200 40)) None None None None
       [mkOcrElement WORD (Some (BoundingBox.mk 10 10 90 40))
          (Some "Hello") (Some 0.98%Q) None None [];
        mkOcrElement WORD (Some (BoundingBox.mk 100 10 200 40))
          (Some "World") (Some 0.98%Q) None None []]].

(** Two lines with tokens for both, but regions for the first only. *)
Definition mismatched_result : ocr_result :=
  mkOcrResult (Some ["a"; "b"])
              (Some [0.9; 0.9]%Q)
              (Some [(0, 0, 10, 10); (0, 20, 10, 30)]%Q)
              (Some [["a"]; ["b"]])
              (Some [[((0, 0), (10, 0), (10, 10), (0, 10))%Q]])
              None true.

Definition predict_mismatched
  : nat → engine → string → bool → outcome (list ocr_result) :=
  λ _ _ _ _, Return [mismatched_result].

(** A process in which the English engine is cached. *)
Definition cached_en_world : world :=
  mkWorld ∅ (Some engine_en) (Some "en") 1 0 [EvConstruct engine_en].

(** The host's environment with the sibling plugin's thread limit. *)
Definition host_world : world :=
  mkWorld {[ "OMP_THREAD_LIMIT" := "1"; "HOME" := "/root" ]} None None 0 0 [].

(** An engine that runs out of memory on every call. *)
Definition predict_out_of_memory
  : nat → engine → string → bool → outcome (list ocr_result) :=
  λ _ _ _ _, Raise (OtherException "MemoryError").

(** An engine whose predictor is stale on every call. *)
Definition predict_stale
  : nat → engine → string → bool → outcome (list ocr_result) :=
  λ _ _ _ _, Raise RuntimeError.

(** One line with two tokens, a blank one and one whose quad is flat. *)
Definition no_word_result : ocr_result :=
  mkOcrResult (Some ["x"]) (Some [0.9%Q]) (Some [(10, 10, 200, 40)%Q])
              (Some [[" "; "x"]]) (Some [[quad_hello; quad_flat]]) None true.

End Samples.

Section Engine.

(** The PaddleOCR constructor (with the [import] that precedes it): the
    [n]-th construction in the process, for language [lang], either succeeds
    ([None]) or raises.  It is assumed not to write [OMP_THREAD_LIMIT]. *)
Variable PaddleOCR_init : nat → string → option exn.

Definition PaddleOCR (lang : string) (doc_orient doc_unwarp textline : bool) : py engine :=
  λ w,
    let n := constructions w in
    match PaddleOCR_init n lang with
    | Some x =>
        (Raise x,
         mkWorld (environ w) (_paddle_engine w) (_paddle_lang w)
                 (S n) (predictions w) (events w ++ [EvConstructFailed lang x]))
    | None =>
        let e := mkEngine n lang doc_orient doc_unwarp textline in
        (Return e,
         mkWorld (environ w) (_paddle_engine w) (_paddle_lang w)
                 (S n) (predictions w) (events w ++ [EvConstruct e]))
    end.

Definition _create_paddle_engine (lang : string) : py engine :=
  saved ← environ_pop "OMP_THREAD_LIMIT";
  engine ← PaddleOCR lang false false true;
  _ ← match saved with
      | Some v => environ_set "OMP_THREAD_LIMIT" v
      | None => mret ()
      end;
  mret engine.

Definition set_cache (e : engine) (lang : string) : py unit :=
  λ w, (Return (),
        mkWorld (environ w) (Some e) (Some lang)
                (constructions w) (predictions w) (events w)).

Definition requested_lang (options : OcrOptions) : string :=
  match languages options with
  | l :: _ => tesseract_to_paddle l
  | [] => "en"
  end.

Definition _get_paddle_engine (options : OcrOptions) : py engine :=
  let lang := requested_lang options in
  λ w,
    match _paddle_engine w with
    | Some e =>
        if decide (_paddle_lang w = Some lang) then (Return e, w)
        else (e' ← _create_paddle_engine lang; _ ← set_cache e' lang; mret e') w
    | None => (e' ← _create_paddle_engine lang; _ ← set_cache e' lang; mret e') w
    end.

Definition _reset_paddle_engine : py unit :=
  λ w, (Return (),
        mkWorld (environ w) None None
                (constructions w) (predictions w) (events w)).

(** [engine.predict(input, return_word_box=...)]: the [n]-th prediction in
    the process returns a list of result dictionaries or raises. *)
Variable engine_predict : nat → engine → string → bool → outcome (list ocr_result).

Definition predict (e : engine) (input : string) (return_word_box : bool)
  : py (list ocr_result) :=
  λ w,
    (engine_predict (predictions w) e input return_word_box,
     mkWorld (environ w) (_paddle_engine w) (_paddle_lang w)
             (constructions w) (S (predictions w))
             (events w ++ [EvPredict e input return_word_box])).

(** [list(DocImgOrientationClassification().predict(input))] *)
Variable clf_predict : string → outcome (list clf_result).

(** [Image.open(input_file)], for a readable image. *)
Variable Image_open : string → Image.

(** [math.degrees(math.atan2(dy, dx))] *)
Variable atan2_degrees : Q → Q → Q.

Definition lift {A} (m : outcome A) : py A := λ w, (m, w).

Definition get_orientation (input_file : string) (options : OcrOptions)
  : py OrientationConfidence :=
  result ← lift (clf_predict input_file);
  match result with
  | [] => mret (mkOrientationConfidence 0 0)
  | r0 :: _ =>
      lift (names ← py_getitem (label_names r0);
            label ← py_index names 0;
            angle ← py_int label;
            ss ← py_getitem (scores r0);
            score ← py_index ss 0;
            let confidence := (score * 15)%Q in
            mret (mkOrientationConfidence angle confidence))
  end.

(** The loop of [get_deskew] over [dt_polys]. *)
Fixpoint collect_angles (dt : list (list point)) (angles : list Q) : list Q :=
  match dt with
  | [] => angles
  | poly :: rest =>
      match poly with
      | p0 :: p1 :: _ =>
          let dx := (fst p1 - fst p0)%Q in
          let dy := (snd p1 - snd p0)%Q in
          if Qltb (Qabs dx) 1 then collect_angles rest angles
          else collect_angles rest (angles ++ [atan2_degrees dy dx])
      | _ => collect_angles rest angles
      end
  end.

(** Lines 147-151: [angles.sort()], then the middle element, or the mean of
    the two middle elements when their number is even. *)
Definition median (angles : list Q) : outcome Q :=
  let angles := merge_sort Qle angles in
  let mid := (length angles / 2)%nat in
  if (length angles mod 2 =? 0)%nat
  then a ← py_index angles (mid - 1);
       b ← py_index angles mid;
       mret ((a + b) / 2)%Q
  else py_index angles mid.

(** Lines 124-151 of [get_deskew], on the list [predict] returned. *)
Definition deskew_of_result (result : list ocr_result) : outcome Q :=
  match result with
  | [] => Return 0%Q
  | r0 :: _ =>
      if dict_is_empty r0 then Return 0%Q
      else
        let polys := default [] (dt_polys r0) in
        if is_nil polys then Return 0%Q
        else
          let angles := collect_angles polys [] in
          if is_nil angles then Return 0%Q
          else median angles
  end.

Definition get_deskew (input_file : string) (options : OcrOptions) : py Q :=
  engine ← _get_paddle_engine options;
  result ← predict engine input_file false;
  lift (deskew_of_result result).

Definition mk_word (b : BoundingBox.t) (t : string) (score : Q) : OcrElement :=
  mkOcrElement WORD (Some b) (Some t) (Some score) None None [].

(** Lines 220-233: the loop over [zip(text_words[i], text_word_regions[i])],
    appending to [line.children]. *)
Fixpoint word_loop (pairs : list (string * quad)) (score : Q) (line : OcrElement)
  : OcrElement :=
  match pairs with
  | [] => line
  | (token, q) :: rest =>
      let token := strip token in
      if is_empty_string token then word_loop rest score line
      else
        match _quad_to_bbox q with
        | None => word_loop rest score line
        | Some word_bbox =>
            word_loop rest score (append_child line (mk_word word_bbox token score))
        end
  end.

(** Lines 216-242: the LINE node of line [i] with its WORD children. *)
Definition build_line (has_word_boxes : bool)
    (text_words : list (list string)) (text_word_regions : list (list quad))
    (i : nat) (text : string) (score : Q) (line_bbox : BoundingBox.t)
  : outcome OcrElement :=
  let line := mkOcrElement LINE (Some line_bbox) None None None None [] in
  if has_word_boxes && (i <? length text_words)%nat
     && negb (is_nil (default [] (text_words !! i)))
  then
    tokens ← py_index text_words i;
    quads ← py_index text_word_regions i;
    mret (word_loop (zip tokens quads) score line)
  else
    mret (append_child line (mk_word line_bbox text score)).

(** Lines 207-246: the loop over
    [enumerate(zip(rec_texts, rec_scores, rec_boxes))], from index [i], with
    the page and [text_parts] built so far. *)
Fixpoint line_loop (has_word_boxes : bool)
    (text_words : list (list string)) (text_word_regions : list (list quad))
    (i : nat) (lines : list (string * Q * box))
    (page : OcrElement) (text_parts : list string)
  : outcome (OcrElement * list string) :=
  match lines with
  | [] => Return (page, text_parts)
  | (text, score, b) :: rest =>
      let continue := line_loop has_word_boxes text_words text_word_regions (S i) rest in
      if is_empty_string (strip text) then continue page text_parts
      else
        match line_box_to_bbox b with
        | None => continue page text_parts
        | Some line_bbox =>
            match build_line has_word_boxes text_words text_word_regions
                             i text score line_bbox with
            | Raise e => Raise e
            | Return line =>
                if is_nil (children line) then continue page text_parts
                else continue (append_child page line) (text_parts ++ [text])%list
            end
        end
  end.

(** Lines 191-249 of [generate_ocr], on the list [predict] returned. *)
Definition assemble (page : OcrElement) (result : list ocr_result)
  : outcome (OcrElement * string) :=
  match result with
  | [] => Return (page, "")
  | ocr_data :: _ =>
      if dict_is_empty ocr_data then Return (page, "")
      else
        let rec_texts := default [] (rec_texts ocr_data) in
        let rec_scores := default [] (rec_scores ocr_data) in
        let rec_boxes := default [] (rec_boxes ocr_data) in
        let text_words := default [] (text_word ocr_data) in
        let text_word_regions := default [] (text_word_region ocr_data) in
        if is_nil rec_texts then Return (page, "")
        else
          let has_word_boxes := negb (is_nil text_words) && negb (is_nil text_word_regions) in
          '(page, text_parts) ←
            line_loop has_word_boxes text_words text_word_regions 0
                      (zip (zip rec_texts rec_scores) rec_boxes) page [];
          mret (page, join newline text_parts)
  end.

(** The [try]/[except] of lines 178-189. *)
Definition predict_with_retry (engine : engine) (input_file : string)
    (options : OcrOptions) : py (list ocr_result) :=
  try_except (predict engine input_file true)
    (λ x, match x with
          | KeyError => Some (predict engine input_file false)
          | RuntimeError =>
              Some (_ ← log_debug "PaddlePaddle inference failed, recreating engine";
                    _ ← _reset_paddle_engine;
                    engine ← _get_paddle_engine options;
                    predict engine input_file true)
          | _ => None
          end).

Definition new_page (img : Image) (page_number : Z) : OcrElement :=
  let '(img_width, img_height) := size img in
  let dpi := match info_dpi img with
             | None => 300%Q
             | Some (DpiTuple x _) => x
             | Some (DpiScalar x) => x
             end in
  mkOcrElement PAGE
    (Some (BoundingBox.mk 0 0 (inject_Z img_width) (inject_Z img_height)))
    None None (Some dpi) (Some page_number) [].

Definition generate_ocr (input_file : string) (options : OcrOptions) (page_number : Z)
  : py (OcrElement * string) :=
  engine ← _get_paddle_engine options;
  let page := new_page (Image_open input_file) page_number in
  result ← predict_with_retry engine input_file options;
  lift (assemble page result).

(** ** Notions used to state the properties *)

Definition cache_hit (w : world) (lang : string) : Prop :=
  is_Some (_paddle_engine w) ∧ _paddle_lang w = Some lang.

Definition quad_xs (q : quad) : list Q :=
  let '(p1, p2, p3, p4) := q in [fst p1; fst p2; fst p3; fst p4].

Definition quad_ys (q : quad) : list Q :=
  let '(p1, p2, p3, p4) := q in [snd p1; snd p2; snd p3; snd p4].

(** [m] is a minimum (maximum) of the numbers [xs]. *)
Definition least (m : Q) (xs : list Q) : Prop :=
  m ∈ xs ∧ Forall (λ x, (m <= x)%Q) xs.

Definition greatest (m : Q) (xs : list Q) : Prop :=
  m ∈ xs ∧ Forall (λ x, (x <= m)%Q) xs.

(** What the orientation classifier promises about a non-empty answer: a
    top label among the four rotations and a top score that is a
    probability. *)
Definition classifier_contract (result : list clf_result) : Prop :=
  match result with
  | [] => True
  | r :: _ =>
      ∃ label names score ss,
        label_names r = Some (label :: names)
        ∧ scores r = Some (score :: ss)
        ∧ label ∈ ["0"; "90"; "180"; "270"]
        ∧ (0 <= score)%Q ∧ (score <= 1)%Q
  end.

(** The angle of a polygon's edge from vertex 0 to vertex 1, for a polygon
    that counts: at least two vertices and a horizontal span of at least 1. *)
Definition top_edge_angle (poly : list point) : option Q :=
  match poly with
  | p0 :: p1 :: _ =>
      if Qlt_le_dec (Qabs (fst p1 - fst p0)) 1 then None
      else Some (atan2_degrees (snd p1 - snd p0) (fst p1 - fst p0))
  | _ => None
  end.

Definition qualifying_angles (polys : list (list point)) : list Q :=
  omap top_edge_angle polys.

(** [m] is the median of [l]: the middle of a sorted rearrangement of [l],
    or the mean of its two middle elements. *)
Definition is_median (m : Q) (l : list Q) : Prop :=
  ∃ s, s ≡ₚ l ∧ Sorted Qle s
       ∧ m = if (length l mod 2 =? 0)%nat
             then ((nth (length l / 2 - 1) s 0 + nth (length l / 2) s 0) / 2)%Q
             else nth (length l / 2) s 0%Q.

Global Instance Qle_total : Total Qle.
Proof. intros x y. destruct (Qlt_le_dec x y); [left; by apply Qlt_le_weak|by right]. Qed.

Definition add_children (parent : OcrElement) (cs : list OcrElement) : OcrElement :=
  mkOcrElement (ocr_class parent) (bbox parent) (text parent) (confidence parent)
               (dpi parent) (page_number parent) (children parent ++ cs).

(** The WORD made from one (token, quad) pair, if any: the token trimmed and
    not blank, the quad not degenerate. *)
Definition word_of (score : Q) (pair : string * quad) : option OcrElement :=
  let token := strip (fst pair) in
  if is_empty_string token then None
  else match _quad_to_bbox (snd pair) with
       | None => None
       | Some word_bbox => Some (mk_word word_bbox token score)
       end.

(** The tokens of line [i] when word-level detail is present and is not
    empty for that line. *)
Definition line_tokens (has_word_boxes : bool) (text_words : list (list string))
    (i : nat) : option (list string) :=
  if has_word_boxes
  then match text_words !! i with
       | Some (t :: ts) => Some (t :: ts)
       | _ => None
       end
  else None.

(** [enumerate(l, start=i)] *)
Fixpoint enumerate_from {A} (i : nat) (l : list A) : list (nat * A) :=
  match l with
  | [] => []
  | x :: r => (i, x) :: enumerate_from (S i) r
  end.

(** [enumerate(zip(rec_texts, rec_scores, rec_boxes))] *)
Definition recognised_lines (d : ocr_result) : list (nat * (string * Q * box)) :=
  enumerate_from 0
    (zip (zip (default [] (rec_texts d)) (default [] (rec_scores d)))
         (default [] (rec_boxes d))).

Definition word_boxes_present (d : ocr_result) : bool :=
  negb (is_nil (default [] (text_word d)))
  && negb (is_nil (default [] (text_word_region d))).

Definition is_return {A} (o : outcome A) : bool :=
  match o with
  | Return _ => true
  | Raise _ => false
  end.

(** What the cache holds was built by a constructor call of this process,
    for the cached language, with the three fixed flags. *)
Definition cache_ok (w : world) : Prop :=
  ∀ e, _paddle_engine w = Some e →
    _paddle_lang w = Some (eng_lang e)
    ∧ use_doc_orientation_classify e = false
    ∧ use_doc_unwarping e = false
    ∧ use_textline_orientation e = true
    ∧ (eng_id e < constructions w)%nat.

(** What a step may do to the process: at most [n_c] constructor calls and
    [n_p] predictions, the history only extended, no environment variable
    other than [OMP_THREAD_LIMIT] touched, the whole environment as it was
    when the step returns, and the cache kept in order. *)
Definition frame {A} (n_c n_p : nat) (w : world) (r : outcome A * world) : Prop :=
  (constructions w ≤ constructions (snd r) ≤ constructions w + n_c)%nat
  ∧ (predictions w ≤ predictions (snd r) ≤ predictions w + n_p)%nat
  ∧ events w `prefix_of` events (snd r)
  ∧ (∀ k, k ≠ "OMP_THREAD_LIMIT" → environ (snd r) !! k = environ w !! k)
  ∧ (is_return (fst r) = true → environ (snd r) = environ w)
  ∧ (cache_ok w → cache_ok (snd r)).

Definition frames {A} (n_c n_p : nat) (m : py A) : Prop :=
  ∀ w, frame n_c n_p w (m w).

(** A box with positive width and height. *)
Definition bbox_valid (b : BoundingBox.t) : Prop :=
  (BoundingBox.left b < BoundingBox.right b)%Q
  ∧ (BoundingBox.top b < BoundingBox.bottom b)%Q.

(** A leaf of the tree: a WORD with a valid box, a text that is not empty
    and a confidence. *)
Definition word_ok (word : OcrElement) : Prop :=
  ocr_class word = WORD
  ∧ (∃ b, bbox word = Some b ∧ bbox_valid b)
  ∧ (∃ t, text word = Some t ∧ t ≠ "")
  ∧ is_Some (confidence word)
  ∧ children word = [].

(** A LINE with a valid box and at least one child, all of them WORDs. *)
Definition line_ok (line : OcrElement) : Prop :=
  ocr_class line = LINE
  ∧ (∃ b, bbox line = Some b ∧ bbox_valid b)
  ∧ text line = None
  ∧ children line ≠ []
  ∧ Forall word_ok (children line).

Global Instance Qle_trans' : Transitive Qle.
Proof. intros x y z. apply Qle_trans. Qed.

Global Instance Qeq_decision (x y : Q) : Decision (x == y)%Q := Qeq_dec x y.

(** How many of the angles equal [a]. *)
Definition count_equal (a : Q) (angles : list Q) : nat :=
  length (filter (λ x, (x == a)%Q) angles).

Global Instance Qlt_decision (x y : Q) : Decision (x < y)%Q :=
  match Qlt_le_dec x y with
  | left H => left H
  | right H => right (Qle_not_lt _ _ H)
  end.

(** The characters of a string. *)
Definition chars (s : string) : list ascii := list_ascii_of_string s.

(** Nothing but white space. *)
Definition blank (s : string) : Prop :=
  Forall (λ c, isspace c = true) (chars s).

(** [t] is [s] without its leading and its trailing white space. *)
Definition trimmed (s t : string) : Prop :=
  ∃ pre post,
    s = pre +:+ t +:+ post ∧ blank pre ∧ blank post
    ∧ (∀ c r, t = String c r → isspace c = false)
    ∧ (∀ r c, t = r +:+ String c "" → isspace c = false).

(** Two of the numbers differ. *)
Definition spread (xs : list Q) : Prop :=
  Exists (λ x, Exists (λ x', (x < x')%Q) xs) xs.

(** A row [x1, y1, x2, y2] with positive width and height, and the box it
    stands for. *)
Definition box_nondegenerate (b : box) : Prop :=
  let '(x1, y1, x2, y2) := b in (x1 < x2)%Q ∧ (y1 < y2)%Q.

Definition box_bbox (b : box) : BoundingBox.t :=
  let '(x1, y1, x2, y2) := b in BoundingBox.mk x1 y1 x2 y2.

(** A quad whose enclosing axis-aligned box has positive width and height,
    and what it is for a box to be that enclosing box. *)
Definition quad_nondegenerate (q : quad) : Prop :=
  spread (quad_xs q) ∧ spread (quad_ys q).

Definition encloses (bb : BoundingBox.t) (q : quad) : Prop :=
  least (BoundingBox.left bb) (quad_xs q)
  ∧ greatest (BoundingBox.right bb) (quad_xs q)
  ∧ least (BoundingBox.top bb) (quad_ys q)
  ∧ greatest (BoundingBox.bottom bb) (quad_ys q).

(** Word-level detail of line [i]: present when [text_word] and
    [text_word_region] are both non-empty and the line has a non-empty token
    list.  It is the tokens and, when [text_word_region] has an entry for
    the line, the quads. *)
Definition word_detail (d : ocr_result) (i : nat)
  : option (list string * option (list quad)) :=
  match default [] (text_word d), default [] (text_word_region d) with
  | _ :: _, _ :: _ =>
      match default [] (text_word d) !! i with
      | Some (t :: ts) => Some (t :: ts, default [] (text_word_region d) !! i)
      | _ => None
      end
  | _, _ => None
  end.

(** A (token, quad) pair that gives a WORD. *)
Definition valid_pair (p : string * quad) : Prop :=
  ¬ blank (fst p) ∧ quad_nondegenerate (snd p).

(** The WORD made of a (token, quad) pair of a line with score [score]. *)
Definition word_for (score : Q) (p : string * quad) (word : OcrElement) : Prop :=
  ocr_class word = WORD
  ∧ (∃ t, text word = Some t ∧ trimmed (fst p) t)
  ∧ (∃ bb, bbox word = Some bb ∧ encloses bb (snd p))
  ∧ confidence word = Some score
  ∧ children word = [].

(** Line [i] is kept: its text is not blank, its box is not degenerate, and
    it gets a WORD: without word-level detail always, with it when one of
    its (token, quad) pairs is valid. *)
Definition line_kept (d : ocr_result) (entry : nat * (string * Q * box)) : Prop :=
  let '(i, (line_text, score, b)) := entry in
  ¬ blank line_text ∧ box_nondegenerate b
  ∧ match word_detail d i with
    | None => True
    | Some (tokens, Some quads) => Exists valid_pair (zip tokens quads)
    | Some (tokens, None) => False
    end.

(** Line [i] makes the assembly fail: its text and box are good, it has
    tokens, and [text_word_region] has no entry for it. *)
Definition line_faults (d : ocr_result) (entry : nat * (string * Q * box)) : Prop :=
  let '(i, (line_text, score, b)) := entry in
  ¬ blank line_text ∧ box_nondegenerate b
  ∧ ∃ tokens, word_detail d i = Some (tokens, None).

(** The WORD children of a kept line. *)
Definition line_words (d : ocr_result) (entry : nat * (string * Q * box))
    (words : list OcrElement) : Prop :=
  let '(i, (line_text, score, b)) := entry in
  Forall (λ word, confidence word = Some score) words
  ∧ match word_detail d i with
    | Some (tokens, Some quads) =>
        Forall2 (word_for score) (filter valid_pair (zip tokens quads)) words
    | _ =>
        words = [mkOcrElement WORD (Some (box_bbox b)) (Some line_text) (Some score)
                              None None []]
    end.

(** The LINE node of a kept line. *)
Definition line_for (entry : nat * (string * Q * box)) (line : OcrElement) : Prop :=
  ocr_class line = LINE
  ∧ bbox line = Some (box_bbox (snd (snd entry)))
  ∧ children line ≠ [].

Definition entry_text (entry : nat * (string * Q * box)) : string :=
  fst (fst (snd entry)).

Global Instance box_nondegenerate_dec (b : box) : Decision (box_nondegenerate b).
Proof. destruct b as [[[x1 y1] x2] y2]. unfold box_nondegenerate. apply _. Defined.

Global Instance valid_pair_dec (p : string * quad) : Decision (valid_pair p).
Proof. unfold valid_pair, blank, quad_nondegenerate, spread. apply _. Defined.

Global Instance line_kept_dec (d : ocr_result) (entry : nat * (string * Q * box))
  : Decision (line_kept d entry).
Proof.
  destruct entry as [i [[line_text score] b]]. unfold line_kept, blank.
  destruct (word_detail d i) as [[tokens [quads|]]|]; apply _.
Defined.

(** The LINE node of a kept line, with its WORD children. *)
Definition line_matches (d : ocr_result) (entry : nat * (string * Q * box))
    (line : OcrElement) : Prop :=
  line_for entry line ∧ line_words d entry (children line).

(** ** Engine construction and the cache *)

Lemma create_paddle_engine_returns (lang : string) (w : world) :
  PaddleOCR_init (constructions w) lang = None →
  _create_paddle_engine lang w =
    (Return (mkEngine (constructions w) lang false false true),
     mkWorld (environ w) (_paddle_engine w) (_paddle_lang w)
             (S (constructions w)) (predictions w)
             (events w ++ [EvConstruct (mkEngine (constructions w) lang false false true)])).
Proof.
  intros Hok.
  unfold _create_paddle_engine, mbind, py_bind, environ_pop, PaddleOCR; simpl.
  rewrite Hok.
  destruct (environ w !! "OMP_THREAD_LIMIT") as [v|] eqn:Hsaved; simpl.
  - unfold mret, py_ret. do 2 f_equal.
    rewrite insert_delete_eq. by apply insert_id.
  - unfold mret, py_ret. do 2 f_equal. by apply delete_id.
Qed.

Lemma create_paddle_engine_raises (lang : string) (w : world) (x : exn) :
  PaddleOCR_init (constructions w) lang = Some x →
  _create_paddle_engine lang w =
    (Raise x,
     mkWorld (delete "OMP_THREAD_LIMIT" (environ w)) (_paddle_engine w) (_paddle_lang w)
             (S (constructions w)) (predictions w)
             (events w ++ [EvConstructFailed lang x])).
Proof.
  intros Hfail.
  unfold _create_paddle_engine, mbind, py_bind, environ_pop, PaddleOCR; simpl.
  by rewrite Hfail.
Qed.

(** On the normal exit the whole environment is as it was. *)
Lemma create_paddle_engine_restores_on_return (lang : string) (w w' : world) (e : engine) :
  _create_paddle_engine lang w = (Return e, w') → environ w' = environ w.
Proof.
  destruct (PaddleOCR_init (constructions w) lang) as [x|] eqn:Hinit.
  - rewrite (create_paddle_engine_raises _ _ _ Hinit). discriminate.
  - rewrite (create_paddle_engine_returns _ _ Hinit). by intros [= _ <-].
Qed.

Lemma get_paddle_engine_hit (options : OcrOptions) (w : world) (e : engine) :
  _paddle_engine w = Some e →
  _paddle_lang w = Some (requested_lang options) →
  _get_paddle_engine options w = (Return e, w).
Proof.
  intros He Hl. unfold _get_paddle_engine. rewrite He.
  by destruct (decide _).
Qed.

Lemma get_paddle_engine_miss (options : OcrOptions) (w : world) :
  ¬ cache_hit w (requested_lang options) →
  _get_paddle_engine options w =
    (e ← _create_paddle_engine (requested_lang options);
     _ ← set_cache e (requested_lang options);
     mret e) w.
Proof.
  intros Hmiss. unfold _get_paddle_engine.
  destruct (_paddle_engine w) as [e|] eqn:He; [|done].
  destruct (decide _) as [Hl|]; [|done].
  exfalso. apply Hmiss. split; [by rewrite He|done].
Qed.

Lemma get_paddle_engine_rebuild (options : OcrOptions) (w : world) :
  ¬ cache_hit w (requested_lang options) →
  PaddleOCR_init (constructions w) (requested_lang options) = None →
  _get_paddle_engine options w =
    (Return (mkEngine (constructions w) (requested_lang options) false false true),
     mkWorld (environ w)
             (Some (mkEngine (constructions w) (requested_lang options) false false true))
             (Some (requested_lang options))
             (S (constructions w)) (predictions w)
             (events w ++ [EvConstruct (mkEngine (constructions w) (requested_lang options)
                                                 false false true)])).
Proof.
  intros Hmiss Hok. rewrite get_paddle_engine_miss by done.
  unfold mbind, py_bind. by rewrite create_paddle_engine_returns.
Qed.

(** Whenever [_get_paddle_engine] returns, the cache holds what it returned,
    under the requested language. *)
Lemma get_paddle_engine_caches (options : OcrOptions) (w w1 : world) (e : engine) :
  _get_paddle_engine options w = (Return e, w1) →
  _paddle_engine w1 = Some e ∧ _paddle_lang w1 = Some (requested_lang options).
Proof.
  intros Hget.
  destruct (decide (cache_hit w (requested_lang options))) as [[[e0 He0] Hl]|Hmiss].
  - rewrite (get_paddle_engine_hit _ _ _ He0 Hl) in Hget.
    injection Hget as <- <-. done.
  - rewrite get_paddle_engine_miss in Hget by done.
    unfold mbind, py_bind in Hget.
    destruct (PaddleOCR_init (constructions w) (requested_lang options)) as [x|] eqn:Hinit.
    + by rewrite (create_paddle_engine_raises _ _ _ Hinit) in Hget.
    + rewrite (create_paddle_engine_returns _ _ Hinit) in Hget.
      simpl in Hget. injection Hget as <- <-. done.
Qed.

(** C4. Acquiring the engine is idempotent per language and rebuilds only
    when the language changes.  Let a first [_get_paddle_engine] return [e].
    (1) A second call for the same language returns the same instance [e]
    and leaves the whole process state, history included, untouched: no
    construction, no mutation of the cache.  (2) If the first call was a
    miss, it constructed [e] exactly once: one constructor event, one
    constructor call.  (3) A following call for a different language, whose
    construction succeeds, performs exactly one construction and replaces
    the cached handle and language by the new ones. *)
Theorem get_paddle_engine_idempotent_rebuild_on_change
    (options same other : OcrOptions) (w w1 : world) (e : engine) :
  _get_paddle_engine options w = (Return e, w1) →
  requested_lang same = requested_lang options →
  requested_lang other ≠ requested_lang options →
  PaddleOCR_init (constructions w1) (requested_lang other) = None →
  _get_paddle_engine same w1 = (Return e, w1)
  ∧ (¬ cache_hit w (requested_lang options) →
       events w1 = events w ++ [EvConstruct e]
       ∧ constructions w1 = S (constructions w)
       ∧ fst (_get_paddle_engine same w1) = Return e
       ∧ events (snd (_get_paddle_engine same w1)) = events w ++ [EvConstruct e])
  ∧ (let e2 := mkEngine (constructions w1) (requested_lang other) false false true in
     _get_paddle_engine other w1 =
       (Return e2,
        mkWorld (environ w1) (Some e2) (Some (requested_lang other))
                (S (constructions w1)) (predictions w1)
                (events w1 ++ [EvConstruct e2]))).
Proof.
  intros Hget Hsame Hother Hinit.
  destruct (get_paddle_engine_caches _ _ _ _ Hget) as [He Hl].
  assert (Hagain : _get_paddle_engine same w1 = (Return e, w1)).
  { apply get_paddle_engine_hit; [done|by rewrite Hsame]. }
  split; [done|]. split.
  - intros Hmiss. rewrite Hagain. simpl.
    rewrite get_paddle_engine_miss in Hget by done.
    unfold mbind, py_bind in Hget.
    destruct (PaddleOCR_init (constructions w) (requested_lang options)) as [x|] eqn:Hi.
    + by rewrite (create_paddle_engine_raises _ _ _ Hi) in Hget.
    + rewrite (create_paddle_engine_returns _ _ Hi) in Hget.
      simpl in Hget. injection Hget as <- <-. done.
  - simpl. apply get_paddle_engine_rebuild; [|done].
    intros [_ Hl']. rewrite Hl in Hl'. congruence.
Qed.

(** ** The retry policy of [generate_ocr] *)

Lemma generate_ocr_acquired (input_file : string) (options : OcrOptions)
    (page_number : Z) (w w0 : world) (e : engine) :
  _get_paddle_engine options w = (Return e, w0) →
  generate_ocr input_file options page_number w =
    (result ← predict_with_retry e input_file options;
     lift (assemble (new_page (Image_open input_file) page_number) result)) w0.
Proof.
  intros Hget. unfold generate_ocr, mbind at 1, py_bind at 1. by rewrite Hget.
Qed.

Lemma predict_with_retry_ok (e : engine) (input_file : string)
    (options : OcrOptions) (w : world) (result : list ocr_result) :
  engine_predict (predictions w) e input_file true = Return result →
  predict_with_retry e input_file options w =
    (Return result,
     mkWorld (environ w) (_paddle_engine w) (_paddle_lang w) (constructions w)
             (S (predictions w)) (events w ++ [EvPredict e input_file true])).
Proof.
  intros H. unfold predict_with_retry, try_except, predict. by rewrite H.
Qed.

Lemma predict_with_retry_key_error (e : engine) (input_file : string)
    (options : OcrOptions) (w : world) :
  engine_predict (predictions w) e input_file true = Raise KeyError →
  predict_with_retry e input_file options w =
    (engine_predict (S (predictions w)) e input_file false,
     mkWorld (environ w) (_paddle_engine w) (_paddle_lang w) (constructions w)
             (S (S (predictions w)))
             (events w ++ [EvPredict e input_file true; EvPredict e input_file false])).
Proof.
  intros H. unfold predict_with_retry, try_except, predict. rewrite H. simpl.
  by rewrite <- app_assoc.
Qed.

Lemma predict_with_retry_runtime_error (e : engine) (input_file : string)
    (options : OcrOptions) (w : world) :
  engine_predict (predictions w) e input_file true = Raise RuntimeError →
  PaddleOCR_init (constructions w) (requested_lang options) = None →
  let e' := mkEngine (constructions w) (requested_lang options) false false true in
  predict_with_retry e input_file options w =
    (engine_predict (S (predictions w)) e' input_file true,
     mkWorld (environ w) (Some e') (Some (requested_lang options))
             (S (constructions w)) (S (S (predictions w)))
             (events w ++ [EvPredict e input_file true;
                           EvLogDebug "PaddlePaddle inference failed, recreating engine";
                           EvConstruct e';
                           EvPredict e' input_file true])).
Proof.
  intros H Hinit e'.
  unfold predict_with_retry, try_except. unfold predict at 1. rewrite H.
  unfold mbind, py_bind, log_debug, _reset_paddle_engine. simpl.
  rewrite get_paddle_engine_rebuild; [|by intros [[? [=]] _]|done].
  unfold predict. simpl. by rewrite <- !app_assoc.
Qed.

(** The exception of a failed rebuild leaves through [generate_ocr] too:
    there is no retry when the engine cannot be rebuilt. *)
Lemma predict_with_retry_rebuild_fails (e : engine) (input_file : string)
    (options : OcrOptions) (w : world) (x : exn) :
  engine_predict (predictions w) e input_file true = Raise RuntimeError →
  PaddleOCR_init (constructions w) (requested_lang options) = Some x →
  predict_with_retry e input_file options w =
    (Raise x,
     mkWorld (delete "OMP_THREAD_LIMIT" (environ w)) None None
             (S (constructions w)) (S (predictions w))
             (events w ++ [EvPredict e input_file true;
                           EvLogDebug "PaddlePaddle inference failed, recreating engine";
                           EvConstructFailed (requested_lang options) x])).
Proof.
  intros H Hinit.
  unfold predict_with_retry, try_except. unfold predict at 1. rewrite H.
  unfold mbind, py_bind, log_debug, _reset_paddle_engine. simpl.
  rewrite get_paddle_engine_miss by (by intros [[? [=]] _]).
  unfold mbind, py_bind.
  erewrite create_paddle_engine_raises; [|exact Hinit].
  simpl. by rewrite <- !app_assoc.
Qed.

(** C2. A runtime fault of the first word-box [predict] is answered by one
    rebuild and one retry.  With the engine acquired as [e], the first call
    raising [RuntimeError] and the rebuild succeeding, [generate_ocr] logs,
    drops the cache, constructs a new engine [e'] for the same language,
    caches it, and calls [predict] on [e'] with word boxes; these four steps
    are the whole history after acquisition (two [predict] calls in all).
    The outcome of [generate_ocr] is that of this one retry: its result is
    assembled, or its exception, whatever it is, reaches the caller. *)
Theorem generate_ocr_runtime_fault_retries_once (input_file : string)
    (options : OcrOptions) (page_number : Z) (w w0 : world) (e : engine) :
  _get_paddle_engine options w = (Return e, w0) →
  engine_predict (predictions w0) e input_file true = Raise RuntimeError →
  PaddleOCR_init (constructions w0) (requested_lang options) = None →
  let e' := mkEngine (constructions w0) (requested_lang options) false false true in
  let retry := engine_predict (S (predictions w0)) e' input_file true in
  let w' := mkWorld (environ w0) (Some e') (Some (requested_lang options))
              (S (constructions w0)) (S (S (predictions w0)))
              (events w0 ++ [EvPredict e input_file true;
                             EvLogDebug "PaddlePaddle inference failed, recreating engine";
                             EvConstruct e';
                             EvPredict e' input_file true]) in
  generate_ocr input_file options page_number w =
    (result ← retry; assemble (new_page (Image_open input_file) page_number) result, w')
  ∧ (∀ x, retry = Raise x →
          generate_ocr input_file options page_number w = (Raise x, w')).
Proof.
  intros Hget Hfirst Hinit e' retry w'.
  assert (Hgen : generate_ocr input_file options page_number w =
    (result ← retry; assemble (new_page (Image_open input_file) page_number) result, w')).
  { rewrite (generate_ocr_acquired _ _ _ _ _ _ Hget).
    unfold mbind at 1, py_bind at 1.
    rewrite (predict_with_retry_runtime_error _ _ _ _ Hfirst Hinit).
    fold e' retry w'. by destruct retry. }
  split; [done|].
  intros x Hx. rewrite Hgen, Hx. done.
Qed.

(** C3, as the code has it.  A data-shape fault ([KeyError]) of the first
    word-box [predict] is answered by one retry on the same engine with word
    boxes disabled: no log, no invalidation, no construction, the cache as it
    was, two [predict] calls in all.  The first call's fault is absorbed; the
    outcome of [generate_ocr] is that of the retry, so an exception raised by
    the retry itself reaches the caller. *)
Theorem generate_ocr_data_shape_fault_retries_plain (input_file : string)
    (options : OcrOptions) (page_number : Z) (w w0 : world) (e : engine) :
  _get_paddle_engine options w = (Return e, w0) →
  engine_predict (predictions w0) e input_file true = Raise KeyError →
  let retry := engine_predict (S (predictions w0)) e input_file false in
  let w' := mkWorld (environ w0) (_paddle_engine w0) (_paddle_lang w0)
              (constructions w0) (S (S (predictions w0)))
              (events w0 ++ [EvPredict e input_file true;
                             EvPredict e input_file false]) in
  generate_ocr input_file options page_number w =
    (result ← retry; assemble (new_page (Image_open input_file) page_number) result, w').
Proof.
  intros Hget Hfirst retry w'.
  rewrite (generate_ocr_acquired _ _ _ _ _ _ Hget).
  unfold mbind at 1, py_bind at 1.
  rewrite (predict_with_retry_key_error _ _ _ _ Hfirst).
  fold retry w'. by destruct retry.
Qed.

(** ** Geometry *)

Lemma Qltb_true (x y : Q) : Qltb x y = true ↔ (x < y)%Q.
Proof.
  unfold Qltb. rewrite negb_true_iff, <- not_true_iff_false, Qle_bool_iff.
  split; [apply Qnot_le_lt|apply Qlt_not_le].
Qed.

Lemma Qltb_false (x y : Q) : Qltb x y = false ↔ (y <= x)%Q.
Proof. unfold Qltb. by rewrite negb_false_iff, Qle_bool_iff. Qed.

Lemma Qle_bool_false (x y : Q) : Qle_bool x y = false ↔ (y < x)%Q.
Proof.
  rewrite <- not_true_iff_false, Qle_bool_iff.
  split; [apply Qnot_le_lt|apply Qlt_not_le].
Qed.

Lemma py_min_least (x : Q) (rest : list Q) : least (py_min x rest) (x :: rest).
Proof.
  unfold py_min. revert x.
  induction rest as [|y rest IH]; intros x; simpl.
  - split; [left|]. repeat constructor. apply Qle_refl.
  - destruct (IH (if Qltb y x then y else x)) as [Hin Hall].
    apply Forall_cons in Hall as [Hhd Htl].
    destruct (Qltb y x) eqn:Hlt.
    + apply Qltb_true in Hlt. split.
      * apply elem_of_cons in Hin as [->|Hin]; [right; left|do 2 right; done].
      * repeat constructor; [lra|done|done].
    + apply Qltb_false in Hlt. split.
      * apply elem_of_cons in Hin as [->|Hin]; [left|do 2 right; done].
      * repeat constructor; [done|lra|done].
Qed.

Lemma py_max_greatest (x : Q) (rest : list Q) : greatest (py_max x rest) (x :: rest).
Proof.
  unfold py_max. revert x.
  induction rest as [|y rest IH]; intros x; simpl.
  - split; [left|]. repeat constructor. apply Qle_refl.
  - destruct (IH (if Qltb x y then y else x)) as [Hin Hall].
    apply Forall_cons in Hall as [Hhd Htl].
    destruct (Qltb x y) eqn:Hlt.
    + apply Qltb_true in Hlt. split.
      * apply elem_of_cons in Hin as [->|Hin]; [right; left|do 2 right; done].
      * repeat constructor; [lra|done|done].
    + apply Qltb_false in Hlt. split.
      * apply elem_of_cons in Hin as [->|Hin]; [left|do 2 right; done].
      * repeat constructor; [done|lra|done].
Qed.

Lemma line_box_to_bbox_cases (x1 y1 x2 y2 : Q) :
  match line_box_to_bbox (x1, y1, x2, y2) with
  | None => (x2 - x1 <= 0 ∨ y2 - y1 <= 0)%Q
  | Some bb => bb = BoundingBox.mk x1 y1 x2 y2 ∧ (x1 < x2)%Q ∧ (y1 < y2)%Q
  end.
Proof.
  unfold line_box_to_bbox.
  destruct (Qle_bool x2 x1) eqn:Hx; simpl.
  { apply Qle_bool_iff in Hx. left. lra. }
  destruct (Qle_bool y2 y1) eqn:Hy; simpl.
  { apply Qle_bool_iff in Hy. right. lra. }
  apply Qle_bool_false in Hx, Hy. done.
Qed.

(** C6. [_quad_to_bbox] takes the minimum [l], [t] and the maximum [r], [b]
    of the four x- and of the four y-coordinates.  It returns [None] only
    for a box of zero or negative width or height ([r - l <= 0] or
    [b - t <= 0]) and otherwise (the two cases exclude each other) the box
    [(l, t, r, b)], which has [l < r] and [t < b].  The inline conversion of
    a row [x1, y1, x2, y2] follows the same rule on [x2 - x1] and [y2 - y1].
    A degenerate line box makes the line loop go on to the next line with
    the page and the texts as they were, and a degenerate quad makes the
    word loop go on to the next token: nothing is raised. *)
Theorem quad_to_bbox_none_exactly_when_degenerate
    (q : quad) (x1 y1 x2 y2 : Q)
    (has_word_boxes : bool) (text_words : list (list string))
    (text_word_regions : list (list quad)) (i : nat)
    (text token : string) (score : Q)
    (lines : list (string * Q * box)) (pairs : list (string * quad))
    (page line : OcrElement) (text_parts : list string) :
  (∃ l t r b,
      least l (quad_xs q) ∧ greatest r (quad_xs q)
      ∧ least t (quad_ys q) ∧ greatest b (quad_ys q)
      ∧ match _quad_to_bbox q with
        | None => (r - l <= 0 ∨ b - t <= 0)%Q
        | Some bb => bb = BoundingBox.mk l t r b ∧ (l < r)%Q ∧ (t < b)%Q
        end)
  ∧ match line_box_to_bbox (x1, y1, x2, y2) with
    | None => (x2 - x1 <= 0 ∨ y2 - y1 <= 0)%Q
    | Some bb => bb = BoundingBox.mk x1 y1 x2 y2 ∧ (x1 < x2)%Q ∧ (y1 < y2)%Q
    end
  ∧ match line_box_to_bbox (x1, y1, x2, y2) with
    | None =>
        line_loop has_word_boxes text_words text_word_regions i
                  ((text, score, (x1, y1, x2, y2)) :: lines) page text_parts
        = line_loop has_word_boxes text_words text_word_regions (S i)
                    lines page text_parts
    | Some _ => True
    end
  ∧ match _quad_to_bbox q with
    | None => word_loop ((token, q) :: pairs) score line = word_loop pairs score line
    | Some _ => True
    end.
Proof.
  split; [|split; [apply line_box_to_bbox_cases|split]].
  - destruct q as [[[p1 p2] p3] p4].
    exists (py_min (fst p1) [fst p2; fst p3; fst p4]),
           (py_min (snd p1) [snd p2; snd p3; snd p4]),
           (py_max (fst p1) [fst p2; fst p3; fst p4]),
           (py_max (snd p1) [snd p2; snd p3; snd p4]).
    split; [apply py_min_least|]. split; [apply py_max_greatest|].
    split; [apply py_min_least|]. split; [apply py_max_greatest|].
    unfold _quad_to_bbox.
    set (l := py_min (fst p1) _). set (r := py_max (fst p1) _).
    set (t := py_min (snd p1) _). set (b := py_max (snd p1) _).
    clearbody l r t b.
    destruct (Qle_bool r l) eqn:Hx; simpl.
    { apply Qle_bool_iff in Hx. left. lra. }
    destruct (Qle_bool b t) eqn:Hy; simpl.
    { apply Qle_bool_iff in Hy. right. lra. }
    apply Qle_bool_false in Hx, Hy. done.
  - destruct (line_box_to_bbox (x1, y1, x2, y2)) eqn:Hbox; [done|].
    cbn [line_loop]. rewrite Hbox. by destruct (is_empty_string (strip text)).
  - destruct (_quad_to_bbox q) eqn:Hq; [done|].
    cbn [word_loop]. rewrite Hq. by destruct (is_empty_string (strip token)).
Qed.

(** The same as an equivalence, on the code's own minimum and maximum. *)
Lemma quad_to_bbox_none_iff (p1 p2 p3 p4 : point) :
  _quad_to_bbox (p1, p2, p3, p4) = None
  ↔ (py_max (fst p1) [fst p2; fst p3; fst p4]
       - py_min (fst p1) [fst p2; fst p3; fst p4] <= 0
     ∨ py_max (snd p1) [snd p2; snd p3; snd p4]
       - py_min (snd p1) [snd p2; snd p3; snd p4] <= 0)%Q.
Proof.
  unfold _quad_to_bbox.
  set (l := py_min (fst p1) _). set (r := py_max (fst p1) _).
  set (t := py_min (snd p1) _). set (b := py_max (snd p1) _).
  clearbody l r t b.
  destruct (Qle_bool r l) eqn:Hx; simpl.
  { apply Qle_bool_iff in Hx. split; [intros _; left; lra|done]. }
  destruct (Qle_bool b t) eqn:Hy; simpl.
  { apply Qle_bool_iff in Hy. split; [intros _; right; lra|done]. }
  apply Qle_bool_false in Hx, Hy. split; [done|]. intros [?|?]; lra.
Qed.

(** ** Orientation *)

(** C9. [get_orientation] returns angle 0 with confidence 0 when the
    classifier produces no result.  Otherwise, for a classifier that keeps
    its contract, it returns the top label read as an integer, which is one
    of 0, 90, 180, 270, and the top score times 15; in both cases the
    confidence lies between 0 and 15 and the process state is unchanged. *)
Theorem get_orientation_top_label_score_times_15
    (input_file : string) (options : OcrOptions) (w : world)
    (result : list clf_result) :
  clf_predict input_file = Return result →
  classifier_contract result →
  ∃ oc,
    get_orientation input_file options w = (Return oc, w)
    ∧ angle oc ∈ [0; 90; 180; 270]%Z
    ∧ (0 <= oc_confidence oc)%Q ∧ (oc_confidence oc <= 15)%Q
    ∧ match result with
      | [] => oc = mkOrientationConfidence 0 0
      | r :: _ =>
          ∃ label score,
            (label_names r ≫= head) = Some label
            ∧ (scores r ≫= head) = Some score
            ∧ py_int label = Return (angle oc)
            ∧ oc_confidence oc = (score * 15)%Q
      end.
Proof.
  intros Hclf Hcontract.
  unfold get_orientation, mbind at 1, py_bind, lift. rewrite Hclf.
  destruct result as [|r rest].
  - exists (mkOrientationConfidence 0 0). simpl.
    split; [done|]. split; [by left|]. split; [lra|]. split; [lra|done].
  - destruct Hcontract as (label & names & score & ss & Hl & Hs & Hin & H0 & H1).
    rewrite Hl, Hs. simpl.
    assert (Hint : ∃ a, py_int label = Return a ∧ a ∈ [0; 90; 180; 270]%Z).
    { repeat (apply elem_of_cons in Hin as [->|Hin]);
        [eexists; split; [vm_compute; reflexivity|repeat constructor]..
        |by apply elem_of_nil in Hin]. }
    destruct Hint as (a & Ha & Hfour).
    exists (mkOrientationConfidence a (score * 15)). simpl.
    unfold mbind, outcome_mbind, outcome_bind. simpl. rewrite Ha. simpl.
    split; [done|]. split; [done|]. split; [lra|]. split; [lra|].
    by exists label, score.
Qed.

(** ** Skew *)

Lemma collect_angles_qualifying (polys : list (list point)) (acc : list Q) :
  collect_angles polys acc = acc ++ qualifying_angles polys.
Proof.
  revert acc. induction polys as [|poly polys IH]; intros acc.
  - simpl. by rewrite app_nil_r.
  - cbn [collect_angles]. unfold qualifying_angles. cbn [omap list_omap].
    fold (qualifying_angles polys).
    destruct poly as [|p0 [|p1 tl]]; cbn [top_edge_angle]; try apply IH.
    destruct (Qlt_le_dec (Qabs (fst p1 - fst p0)) 1) as [Hlt|Hge].
    + apply Qltb_true in Hlt. rewrite Hlt. apply IH.
    + apply Qltb_false in Hge. rewrite Hge. rewrite IH.
      by rewrite <- app_assoc.
Qed.

Lemma py_index_in_range {A} (l : list A) (i : nat) (d : A) :
  (i < length l)%nat → py_index l i = Return (nth i l d).
Proof.
  intros Hi. unfold py_index.
  destruct (l !! i) as [a|] eqn:Hl.
  - f_equal. symmetry. by apply nth_lookup_Some.
  - apply lookup_ge_None in Hl. lia.
Qed.

Lemma median_is_median (l : list Q) :
  l ≠ [] → ∃ m, median l = Return m ∧ is_median m l.
Proof.
  intros Hne. unfold median.
  pose proof (merge_sort_Permutation Qle l) as Hperm.
  pose proof (Sorted_merge_sort Qle l) as Hsorted.
  pose proof (Permutation_length Hperm) as Hlen.
  set (s := merge_sort Qle l) in *. clearbody s.
  assert (Hpos : (0 < length l)%nat) by (destruct l; [done|simpl; lia]).
  assert (Hmid : (length l / 2 < length l)%nat) by (apply Nat.div_lt; lia).
  rewrite Hlen.
  eexists. split; [|exists s; split; [done|split; [done|reflexivity]]].
  destruct (length l mod 2 =? 0)%nat.
  - rewrite (py_index_in_range s _ 0%Q) by lia.
    rewrite (py_index_in_range s _ 0%Q) by lia. done.
  - by rewrite (py_index_in_range s _ 0%Q) by lia.
Qed.

Lemma deskew_of_result_median (result : list ocr_result) :
  ∃ skew,
    deskew_of_result result = Return skew
    ∧ match result with
      | [] => skew = 0%Q
      | r0 :: _ =>
          if dict_is_empty r0 then skew = 0%Q
          else match default [] (dt_polys r0) with
               | [] => skew = 0%Q
               | polys =>
                   match qualifying_angles polys with
                   | [] => skew = 0%Q
                   | angles => is_median skew angles
                   end
               end
      end.
Proof.
  unfold deskew_of_result.
  destruct result as [|r0 rest]; [by exists 0%Q|].
  destruct (dict_is_empty r0); [by exists 0%Q|].
  destruct (default [] (dt_polys r0)) as [|poly polys] eqn:Hpolys; [by exists 0%Q|].
  cbn [is_nil]. rewrite collect_angles_qualifying, app_nil_l.
  destruct (qualifying_angles (poly :: polys)) as [|a angles] eqn:Hq; [by exists 0%Q|].
  cbn [is_nil]. by apply median_is_median.
Qed.

(** C7. [get_deskew] acquires the engine, runs a plain [predict] and returns
    the median of the angles [atan2_degrees dy dx] of the vertex-0-to-vertex-1
    edges of the detection polygons, taken over the polygons with at least
    two vertices and [|dx| >= 1]: the middle element of the sorted angles, or
    the mean of the two middle elements for an even count.  It returns 0
    when the result list is empty, when its first element is empty, when the
    polygon list is empty or missing, and when no edge qualifies. *)
Theorem get_deskew_median_of_top_edge_angles (input_file : string)
    (options : OcrOptions) (w w0 : world) (e : engine)
    (result : list ocr_result) :
  _get_paddle_engine options w = (Return e, w0) →
  engine_predict (predictions w0) e input_file false = Return result →
  ∃ skew,
    get_deskew input_file options w =
      (Return skew,
       mkWorld (environ w0) (_paddle_engine w0) (_paddle_lang w0) (constructions w0)
               (S (predictions w0)) (events w0 ++ [EvPredict e input_file false]))
    ∧ match result with
      | [] => skew = 0%Q
      | r0 :: _ =>
          if dict_is_empty r0 then skew = 0%Q
          else match default [] (dt_polys r0) with
               | [] => skew = 0%Q
               | polys =>
                   match qualifying_angles polys with
                   | [] => skew = 0%Q
                   | angles => is_median skew angles
                   end
               end
      end.
Proof.
  intros Hget Hpredict.
  destruct (deskew_of_result_median result) as (skew & Hskew & Hspec).
  exists skew. split; [|done].
  unfold get_deskew, mbind, py_bind. rewrite Hget.
  unfold predict, lift. by rewrite Hpredict, Hskew.
Qed.

(** ** Assembling the page *)

Lemma add_children_nil (parent : OcrElement) : add_children parent [] = parent.
Proof. destruct parent. unfold add_children. simpl. by rewrite app_nil_r. Qed.

Lemma add_children_app (parent : OcrElement) (cs ds : list OcrElement) :
  add_children (add_children parent cs) ds = add_children parent (cs ++ ds).
Proof. unfold add_children. simpl. by rewrite <- app_assoc. Qed.

Lemma append_child_add (parent child : OcrElement) :
  append_child parent child = add_children parent [child].
Proof. done. Qed.

Lemma word_loop_omap (pairs : list (string * quad)) (score : Q) (line : OcrElement) :
  word_loop pairs score line = add_children line (omap (word_of score) pairs).
Proof.
  revert line. induction pairs as [|[token q] pairs IH]; intros line.
  - simpl. by rewrite add_children_nil.
  - assert (Hw : word_of score (token, q) =
                 if is_empty_string (strip token) then None
                 else match _quad_to_bbox q with
                      | None => None
                      | Some word_bbox => Some (mk_word word_bbox (strip token) score)
                      end) by done.
    cbn [word_loop omap list_omap]. rewrite Hw.
    destruct (is_empty_string (strip token)); [apply IH|].
    destruct (_quad_to_bbox q) as [word_bbox|]; [|apply IH].
    rewrite IH, append_child_add, add_children_app. done.
Qed.

Lemma build_line_children (has_word_boxes : bool)
    (text_words : list (list string)) (text_word_regions : list (list quad))
    (i : nat) (text : string) (score : Q) (line_bbox : BoundingBox.t) :
  (length text_words ≤ length text_word_regions)%nat →
  build_line has_word_boxes text_words text_word_regions i text score line_bbox =
    Return (mkOcrElement LINE (Some line_bbox) None None None None
              match line_tokens has_word_boxes text_words i with
              | Some tokens =>
                  omap (word_of score)
                       (zip tokens (default [] (text_word_regions !! i)))
              | None => [mk_word line_bbox text score]
              end).
Proof.
  intros Hlen. unfold build_line, line_tokens.
  destruct has_word_boxes; [|done]. cbn [andb].
  destruct (text_words !! i) as [tokens|] eqn:Htokens.
  - pose proof (lookup_lt_Some _ _ _ Htokens) as Hi.
    assert (Hlt : (i <? length text_words)%nat = true) by (apply Nat.ltb_lt; lia).
    rewrite Hlt. cbn [andb default].
    destruct tokens as [|t ts]; [done|]. cbn [is_nil negb].
    destruct (lookup_lt_is_Some_2 text_word_regions i) as [quads Hquads]; [lia|].
    unfold py_index. rewrite Htokens, Hquads. cbn.
    by rewrite word_loop_omap.
  - apply lookup_ge_None in Htokens.
    assert (Hge : (i <? length text_words)%nat = false) by (apply Nat.ltb_ge; lia).
    by rewrite Hge.
Qed.

(** Without a region list for line [i], a line that passes the guard on
    [text_words] makes [build_line] raise. *)
Lemma build_line_index_error
    (text_words : list (list string)) (text_word_regions : list (list quad))
    (i : nat) (t : string) (ts : list string)
    (text : string) (score : Q) (line_bbox : BoundingBox.t) :
  text_words !! i = Some (t :: ts) →
  text_word_regions !! i = None →
  build_line true text_words text_word_regions i text score line_bbox = Raise IndexError.
Proof.
  intros Htokens Hquads. unfold build_line.
  pose proof (lookup_lt_Some _ _ _ Htokens) as Hi.
  assert (Hlt : (i <? length text_words)%nat = true) by (apply Nat.ltb_lt; lia).
  unfold py_index. by rewrite Hlt, Htokens, Hquads.
Qed.

(** ** The language table *)

Lemma lang_map_values_not_keys (lang v : string) :
  _LANG_MAP !! lang = Some v → _LANG_MAP !! v = None.
Proof.
  intros H. unfold _LANG_MAP in H. apply elem_of_list_to_map_2 in H.
  repeat (apply elem_of_cons in H as [[= -> ->]|H]); try (vm_compute; reflexivity).
  by apply elem_of_nil in H.
Qed.

Lemma pairs_snd_inj {A B} (l : list (A * B)) (a b : A) (v : B) :
  NoDup (l.*2) → (a, v) ∈ l → (b, v) ∈ l → a = b.
Proof.
  induction l as [|[a0 v0] l IH]; intros Hnd Ha Hb.
  - by apply elem_of_nil in Ha.
  - cbn in Hnd. apply NoDup_cons in Hnd as [Hnotin Hnd].
    apply elem_of_cons in Ha as [Ha|Ha], Hb as [Hb|Hb].
    + congruence.
    + exfalso. apply Hnotin. apply list_elem_of_fmap. exists (b, v).
      split; [simpl; congruence|done].
    + exfalso. apply Hnotin. apply list_elem_of_fmap. exists (a, v).
      split; [simpl; congruence|done].
    + by apply IH.
Qed.

Lemma tesseract_to_paddle_of_entry (lang v : string) :
  _LANG_MAP !! lang = Some v → tesseract_to_paddle lang = v.
Proof. unfold tesseract_to_paddle. by intros ->. Qed.

Lemma tesseract_to_paddle_no_entry (lang : string) :
  _LANG_MAP !! lang = None → tesseract_to_paddle lang = lang.
Proof. unfold tesseract_to_paddle. by intros ->. Qed.

(** X1. Translating twice is translating once: no PaddleOCR code of the
    table is itself a Tesseract code of the table. *)
Theorem tesseract_to_paddle_idempotent (lang : string) :
  tesseract_to_paddle (tesseract_to_paddle lang) = tesseract_to_paddle lang.
Proof.
  destruct (_LANG_MAP !! lang) as [v|] eqn:Hlang.
  - rewrite (tesseract_to_paddle_of_entry _ _ Hlang).
    apply tesseract_to_paddle_no_entry.
    by apply (lang_map_values_not_keys lang).
  - by rewrite !(tesseract_to_paddle_no_entry _ Hlang).
Qed.

(** X2. The languages [PaddleOcrEngine.languages] reports are exactly the
    codes that [tesseract_to_paddle] changes; every other code is passed
    through as it is. *)
Theorem tesseract_to_paddle_fixes_exactly_unsupported
    (options : OcrOptions) (lang : string) :
  tesseract_to_paddle lang = lang ↔ lang ∉ PaddleOcrEngine_languages options.
Proof.
  unfold PaddleOcrEngine_languages, SUPPORTED_LANGUAGES.
  rewrite not_elem_of_dom.
  destruct (_LANG_MAP !! lang) as [v|] eqn:Hlang.
  - rewrite (tesseract_to_paddle_of_entry _ _ Hlang).
    split; [|done]. intros ->.
    pose proof (lang_map_values_not_keys _ _ Hlang). congruence.
  - by rewrite (tesseract_to_paddle_no_entry _ Hlang).
Qed.

Lemma lang_map_entry_inj (l1 l2 v : string) :
  _LANG_MAP !! l1 = Some v → _LANG_MAP !! l2 = Some v → l1 = l2.
Proof.
  unfold _LANG_MAP. intros H1 H2.
  apply elem_of_list_to_map_2 in H1, H2.
  eapply pairs_snd_inj; [|exact H1|exact H2].
  apply (bool_decide_unpack _). vm_compute. reflexivity.
Qed.

(** X3. Two different supported languages are never translated to the same
    PaddleOCR code. *)
Theorem tesseract_to_paddle_injective_on_supported (l1 l2 : string) :
  l1 ∈ SUPPORTED_LANGUAGES →
  l2 ∈ SUPPORTED_LANGUAGES →
  l1 ≠ l2 →
  tesseract_to_paddle l1 ≠ tesseract_to_paddle l2.
Proof.
  unfold SUPPORTED_LANGUAGES.
  intros [v1 H1]%elem_of_dom [v2 H2]%elem_of_dom Hne.
  rewrite (tesseract_to_paddle_of_entry _ _ H1), (tesseract_to_paddle_of_entry _ _ H2).
  intros <-. apply Hne. by apply (lang_map_entry_inj l1 l2 v1).
Qed.

(** ** Plugin options *)

(** X4. After [check_options] the host runs one job, whatever was asked
    for; a line is logged exactly when that changed something; checking
    again changes and logs nothing. *)
Theorem check_options_forces_one_job (options : HostOptions) :
  jobs (fst (check_options options)) = Some 1%Z
  ∧ (snd (check_options options) = [] ↔ jobs options = Some 1%Z)
  ∧ check_options (fst (check_options options)) = (fst (check_options options), []).
Proof.
  unfold check_options.
  destruct (decide (jobs options ≠ Some 1%Z)) as [Hne|Heq]; simpl.
  - split; [done|]. split; [split; [done|by intros ?]|done].
  - apply dec_stable in Heq. split; [done|]. split; [done|].
    destruct (decide (jobs options ≠ Some 1%Z)); [done|done].
Qed.

(** ** What the operations may do to the process *)

Lemma frame_weaken {A} (a b a' b' : nat) (w : world) (r : outcome A * world) :
  (a ≤ a')%nat → (b ≤ b')%nat → frame a b w r → frame a' b' w r.
Proof.
  intros Ha Hb (Hc & Hp & Hrest). unfold frame. split; [lia|]. split; [lia|done].
Qed.

Lemma frames_bind {A B} (a b c d : nat) (m : py A) (f : A → py B) :
  frames a b m → (∀ x, frames c d (f x)) → frames (a + c) (b + d) (m ≫= f).
Proof.
  intros Hm Hf w. unfold mbind, py_bind.
  specialize (Hm w). destruct (m w) as [[x|e] w1]; cbn beta iota.
  - specialize (Hf x w1). destruct (f x w1) as [o w2].
    destruct Hm as (Hc1 & Hp1 & Hev1 & Hk1 & Hret1 & Hok1).
    destruct Hf as (Hc2 & Hp2 & Hev2 & Hk2 & Hret2 & Hok2).
    unfold frame. simpl in *.
    split; [lia|]. split; [lia|]. split; [by etrans|].
    split; [intros k Hk; by rewrite Hk2, Hk1|].
    split; [intros Ho; by rewrite Hret2, Hret1|auto].
  - apply (frame_weaken a b); [lia|lia|done].
Qed.

Lemma frames_lift {A} (m : outcome A) : frames 0 0 (lift m).
Proof.
  intros w. unfold lift, frame. simpl.
  split; [lia|]. split; [lia|]. done.
Qed.

Lemma frames_predict (e : engine) (input : string) (return_word_box : bool) :
  frames 0 1 (predict e input return_word_box).
Proof.
  intros w. unfold predict, frame. simpl.
  split; [lia|]. split; [lia|]. split; [by apply prefix_app_r|]. done.
Qed.

Lemma get_paddle_engine_rebuild_fails (options : OcrOptions) (w : world) (x : exn) :
  ¬ cache_hit w (requested_lang options) →
  PaddleOCR_init (constructions w) (requested_lang options) = Some x →
  _get_paddle_engine options w =
    (Raise x,
     mkWorld (delete "OMP_THREAD_LIMIT" (environ w)) (_paddle_engine w) (_paddle_lang w)
             (S (constructions w)) (predictions w)
             (events w ++ [EvConstructFailed (requested_lang options) x])).
Proof.
  intros Hmiss Hinit. rewrite get_paddle_engine_miss by done.
  unfold mbind, py_bind. by rewrite (create_paddle_engine_raises _ _ _ Hinit).
Qed.

Lemma cache_ok_more_constructions (w w' : world) :
  _paddle_engine w' = _paddle_engine w →
  _paddle_lang w' = _paddle_lang w →
  (constructions w ≤ constructions w')%nat →
  cache_ok w → cache_ok w'.
Proof.
  intros He Hl Hc Hok e Hcached. rewrite He in Hcached. rewrite Hl.
  destruct (Hok e Hcached) as (? & ? & ? & ? & ?). repeat split; [done..|lia].
Qed.

Lemma frames_get_paddle_engine (options : OcrOptions) :
  frames 1 0 (_get_paddle_engine options).
Proof.
  intros w.
  destruct (decide (cache_hit w (requested_lang options))) as [[[e He] Hl]|Hmiss].
  { rewrite (get_paddle_engine_hit _ _ _ He Hl). unfold frame. simpl.
    split; [lia|]. split; [lia|]. done. }
  destruct (PaddleOCR_init (constructions w) (requested_lang options)) as [x|] eqn:Hinit.
  - rewrite (get_paddle_engine_rebuild_fails _ _ _ Hmiss Hinit). unfold frame. simpl.
    split; [lia|]. split; [lia|]. split; [by apply prefix_app_r|].
    split; [intros k Hk; by apply lookup_delete_ne|]. split; [done|].
    apply cache_ok_more_constructions; simpl; [done|done|lia].
  - rewrite (get_paddle_engine_rebuild _ _ Hmiss Hinit). unfold frame. simpl.
    split; [lia|]. split; [lia|]. split; [by apply prefix_app_r|].
    split; [done|]. split; [done|].
    intros _ e [= <-]. simpl. repeat split; lia.
Qed.

Lemma predict_with_retry_other (e : engine) (input_file : string)
    (options : OcrOptions) (w : world) (x : exn) :
  engine_predict (predictions w) e input_file true = Raise x →
  x ≠ KeyError → x ≠ RuntimeError →
  predict_with_retry e input_file options w =
    (Raise x,
     mkWorld (environ w) (_paddle_engine w) (_paddle_lang w) (constructions w)
             (S (predictions w)) (events w ++ [EvPredict e input_file true])).
Proof.
  intros H Hk Hr. unfold predict_with_retry, try_except, predict. rewrite H.
  by destruct x.
Qed.

Lemma frames_predict_with_retry (e : engine) (input_file : string)
    (options : OcrOptions) :
  frames 1 2 (predict_with_retry e input_file options).
Proof.
  intros w.
  destruct (engine_predict (predictions w) e input_file true) as [r|x] eqn:Hfirst.
  { rewrite (predict_with_retry_ok _ _ _ _ _ Hfirst). unfold frame. simpl.
    split; [lia|]. split; [lia|]. split; [by apply prefix_app_r|]. done. }
  destruct (decide (x = KeyError)) as [->|Hk].
  { rewrite (predict_with_retry_key_error _ _ _ _ Hfirst). unfold frame. simpl.
    split; [lia|]. split; [lia|]. split; [by apply prefix_app_r|]. done. }
  destruct (decide (x = RuntimeError)) as [->|Hr].
  2:{ rewrite (predict_with_retry_other _ _ _ _ _ Hfirst Hk Hr). unfold frame. simpl.
      split; [lia|]. split; [lia|]. split; [by apply prefix_app_r|]. done. }
  destruct (PaddleOCR_init (constructions w) (requested_lang options)) as [y|] eqn:Hinit.
  - rewrite (predict_with_retry_rebuild_fails _ _ _ _ _ Hfirst Hinit). unfold frame. simpl.
    split; [lia|]. split; [lia|]. split; [by apply prefix_app_r|].
    split; [intros k ?; by apply lookup_delete_ne|]. split; [done|].
    by intros _ e' [=].
  - rewrite (predict_with_retry_runtime_error _ _ _ _ Hfirst Hinit). unfold frame. simpl.
    split; [lia|]. split; [lia|]. split; [by apply prefix_app_r|].
    split; [done|]. split; [done|].
    intros _ e' [= <-]. simpl. repeat split; lia.
Qed.

Lemma frames_generate_ocr (input_file : string) (options : OcrOptions) (page_number : Z) :
  frames 2 2 (generate_ocr input_file options page_number).
Proof.
  unfold generate_ocr.
  apply (frames_bind 1 0 1 2); [apply frames_get_paddle_engine|]. intros e.
  apply (frames_bind 1 2 0 0); [apply frames_predict_with_retry|]. intros result.
  apply frames_lift.
Qed.

Lemma frames_get_deskew (input_file : string) (options : OcrOptions) :
  frames 1 1 (get_deskew input_file options).
Proof.
  unfold get_deskew.
  apply (frames_bind 1 0 0 1); [apply frames_get_paddle_engine|]. intros e.
  apply (frames_bind 0 1 0 0); [apply frames_predict|]. intros result.
  apply frames_lift.
Qed.

(** X5. Whatever the engine and its constructor do, one [generate_ocr] calls
    [predict] at most twice and the constructor at most twice, and one
    [get_deskew] calls each at most once; neither shortens the history. *)
Theorem generate_ocr_call_budget (input_file : string) (options : OcrOptions)
    (page_number : Z) (w : world) :
  (predictions (snd (generate_ocr input_file options page_number w))
     ≤ predictions w + 2)%nat
  ∧ (constructions (snd (generate_ocr input_file options page_number w))
     ≤ constructions w + 2)%nat
  ∧ events w `prefix_of` events (snd (generate_ocr input_file options page_number w))
  ∧ (predictions (snd (get_deskew input_file options w)) ≤ predictions w + 1)%nat
  ∧ (constructions (snd (get_deskew input_file options w)) ≤ constructions w + 1)%nat
  ∧ events w `prefix_of` events (snd (get_deskew input_file options w)).
Proof.
  destruct (frames_generate_ocr input_file options page_number w)
    as (Hc & Hp & Hev & _).
  destruct (frames_get_deskew input_file options w) as (Hc' & Hp' & Hev' & _).
  repeat split; [lia|lia|done|lia|lia|done].
Qed.

(** X6. [generate_ocr] and [get_deskew] never touch an environment variable
    other than [OMP_THREAD_LIMIT], on any path. *)
Theorem generate_ocr_leaves_other_variables (input_file : string)
    (options : OcrOptions) (page_number : Z) (w : world) (k : string) :
  k ≠ "OMP_THREAD_LIMIT" →
  environ (snd (generate_ocr input_file options page_number w)) !! k = environ w !! k
  ∧ environ (snd (get_deskew input_file options w)) !! k = environ w !! k.
Proof.
  intros Hk.
  destruct (frames_generate_ocr input_file options page_number w)
    as (_ & _ & _ & Henv & _).
  destruct (frames_get_deskew input_file options w) as (_ & _ & _ & Henv' & _).
  auto.
Qed.

(** X7. When [generate_ocr] returns a page, the whole environment is as it
    was before the call, whichever retries and rebuilds took place. *)
Theorem generate_ocr_return_restores_environment (input_file : string)
    (options : OcrOptions) (page_number : Z) (w w' : world)
    (page : OcrElement) (full_text : string) :
  generate_ocr input_file options page_number w = (Return (page, full_text), w') →
  environ w' = environ w.
Proof.
  intros Hgen.
  destruct (frames_generate_ocr input_file options page_number w)
    as (_ & _ & _ & _ & Hret & _).
  rewrite Hgen in Hret. by apply Hret.
Qed.

(** X8. The cache invariant.  If the cached engine, when there is one, was
    built by this process for the cached language with orientation
    classification and unwarping off and text-line orientation on, then this
    still holds after [_get_paddle_engine], [_reset_paddle_engine],
    [generate_ocr] and [get_deskew], however they end; and the engine that
    [_get_paddle_engine] returns is one built for the requested language
    with these flags. *)
Theorem cache_ok_preserved (input_file : string) (options : OcrOptions)
    (page_number : Z) (w : world) :
  cache_ok w →
  cache_ok (snd (_get_paddle_engine options w))
  ∧ cache_ok (snd (_reset_paddle_engine w))
  ∧ cache_ok (snd (generate_ocr input_file options page_number w))
  ∧ cache_ok (snd (get_deskew input_file options w))
  ∧ ∀ e, fst (_get_paddle_engine options w) = Return e →
         eng_lang e = requested_lang options
         ∧ use_doc_orientation_classify e = false
         ∧ use_doc_unwarping e = false
         ∧ use_textline_orientation e = true.
Proof.
  intros Hok.
  split; [by apply (frames_get_paddle_engine options w)|].
  split; [by intros e [=]|].
  split; [by apply (frames_generate_ocr input_file options page_number w)|].
  split; [by apply (frames_get_deskew input_file options w)|].
  intros e He.
  destruct (_get_paddle_engine options w) as [o w1] eqn:Hget. simpl in He. subst o.
  destruct (get_paddle_engine_caches _ _ _ _ Hget) as [Hcached Hlang].
  assert (Hok1 : cache_ok w1).
  { pose proof (frames_get_paddle_engine options w) as Hf.
    rewrite Hget in Hf. by apply Hf. }
  destruct (Hok1 e Hcached) as (Hl & ? & ? & ? & _).
  rewrite Hlang in Hl. injection Hl as Hl. by rewrite Hl.
Qed.

(** ** More on the cache and on failures *)

(** X9. After an invalidation the next [_get_paddle_engine] always calls the
    constructor, also for the language that was cached: it returns and
    caches the new engine, or raises the constructor's exception and leaves
    the cache empty. *)
Theorem reset_then_get_always_constructs (options : OcrOptions) (w : world) :
  (_ ← _reset_paddle_engine; _get_paddle_engine options) w =
    match PaddleOCR_init (constructions w) (requested_lang options) with
    | None =>
        let e := mkEngine (constructions w) (requested_lang options) false false true in
        (Return e,
         mkWorld (environ w) (Some e) (Some (requested_lang options))
                 (S (constructions w)) (predictions w) (events w ++ [EvConstruct e]))
    | Some x =>
        (Raise x,
         mkWorld (delete "OMP_THREAD_LIMIT" (environ w)) None None
                 (S (constructions w)) (predictions w)
                 (events w ++ [EvConstructFailed (requested_lang options) x]))
    end.
Proof.
  unfold mbind, py_bind, _reset_paddle_engine. cbn beta iota.
  destruct (PaddleOCR_init (constructions w) (requested_lang options)) as [x|] eqn:Hinit.
  - rewrite (get_paddle_engine_rebuild_fails _ _ x); [done|by intros [[? [=]] _]|done].
  - rewrite get_paddle_engine_rebuild; [done|by intros [[? [=]] _]|done].
Qed.

(** X10. A rebuild for another language that fails in the constructor
    raises the constructor's exception and leaves the cached engine and
    language as they were, so a later request for the old language is still
    served from the cache. *)
Theorem get_paddle_engine_failed_rebuild_keeps_cache
    (options old : OcrOptions) (w : world) (e : engine) (x : exn) :
  _paddle_engine w = Some e →
  _paddle_lang w = Some (requested_lang old) →
  requested_lang options ≠ requested_lang old →
  PaddleOCR_init (constructions w) (requested_lang options) = Some x →
  ∃ w',
    _get_paddle_engine options w = (Raise x, w')
    ∧ _paddle_engine w' = Some e
    ∧ _paddle_lang w' = Some (requested_lang old)
    ∧ _get_paddle_engine old w' = (Return e, w').
Proof.
  intros He Hl Hne Hinit. eexists. split.
  - apply get_paddle_engine_rebuild_fails; [|done].
    intros [_ Hl']. rewrite Hl in Hl'. congruence.
  - split; [done|]. split; [done|]. by apply get_paddle_engine_hit.
Qed.

(** X11. An exception of the first [predict] that is neither a [KeyError]
    nor a [RuntimeError] leaves [generate_ocr] at once: one [predict] call,
    no retry, the cache untouched. *)
Theorem generate_ocr_other_fault_not_retried (input_file : string)
    (options : OcrOptions) (page_number : Z) (w w0 : world) (e : engine) (x : exn) :
  _get_paddle_engine options w = (Return e, w0) →
  engine_predict (predictions w0) e input_file true = Raise x →
  x ≠ KeyError →
  x ≠ RuntimeError →
  generate_ocr input_file options page_number w =
    (Raise x,
     mkWorld (environ w0) (_paddle_engine w0) (_paddle_lang w0) (constructions w0)
             (S (predictions w0)) (events w0 ++ [EvPredict e input_file true])).
Proof.
  intros Hget Hfirst Hk Hr.
  rewrite (generate_ocr_acquired _ _ _ _ _ _ Hget).
  unfold mbind, py_bind.
  by rewrite (predict_with_retry_other _ _ _ _ _ Hfirst Hk Hr).
Qed.

(** X12. When the engine has to be built and the constructor raises,
    [generate_ocr] and [get_deskew] raise that exception without calling
    [predict]. *)
Theorem construction_failure_stops_before_predict (input_file : string)
    (options : OcrOptions) (page_number : Z) (w : world) (x : exn) :
  ¬ cache_hit w (requested_lang options) →
  PaddleOCR_init (constructions w) (requested_lang options) = Some x →
  let w' := mkWorld (delete "OMP_THREAD_LIMIT" (environ w))
              (_paddle_engine w) (_paddle_lang w)
              (S (constructions w)) (predictions w)
              (events w ++ [EvConstructFailed (requested_lang options) x]) in
  generate_ocr input_file options page_number w = (Raise x, w')
  ∧ get_deskew input_file options w = (Raise x, w').
Proof.
  intros Hmiss Hinit w'.
  unfold generate_ocr, get_deskew, mbind, py_bind.
  by rewrite (get_paddle_engine_rebuild_fails _ _ _ Hmiss Hinit).
Qed.

(** X13. [get_deskew] has no retry: any exception of its [predict] call,
    a [RuntimeError] or a [KeyError] included, reaches the caller after that
    one call, and the engine stays cached. *)
Theorem get_deskew_fault_not_retried (input_file : string)
    (options : OcrOptions) (w w0 : world) (e : engine) (x : exn) :
  _get_paddle_engine options w = (Return e, w0) →
  engine_predict (predictions w0) e input_file false = Raise x →
  get_deskew input_file options w =
    (Raise x,
     mkWorld (environ w0) (_paddle_engine w0) (_paddle_lang w0) (constructions w0)
             (S (predictions w0)) (events w0 ++ [EvPredict e input_file false])).
Proof.
  intros Hget Hpredict.
  unfold get_deskew, mbind, py_bind. rewrite Hget.
  unfold predict. by rewrite Hpredict.
Qed.

(** ** The shape of the tree *)

Lemma quad_to_bbox_some_valid (q : quad) (b : BoundingBox.t) :
  _quad_to_bbox q = Some b → bbox_valid b.
Proof.
  destruct q as [[[p1 p2] p3] p4]. unfold _quad_to_bbox.
  set (l := py_min (fst p1) _). set (r := py_max (fst p1) _).
  set (t := py_min (snd p1) _). set (bt := py_max (snd p1) _).
  clearbody l r t bt.
  destruct (Qle_bool r l) eqn:Hx; [done|].
  destruct (Qle_bool bt t) eqn:Hy; [done|].
  apply Qle_bool_false in Hx, Hy. simpl. by intros [= <-].
Qed.

Lemma line_box_to_bbox_some_valid (b : box) (line_bbox : BoundingBox.t) :
  line_box_to_bbox b = Some line_bbox → bbox_valid line_bbox.
Proof.
  destruct b as [[[x1 y1] x2] y2]. intros Hbox.
  pose proof (line_box_to_bbox_cases x1 y1 x2 y2) as Hcases.
  rewrite Hbox in Hcases. by destruct Hcases as (-> & ? & ?).
Qed.

Lemma is_empty_string_false (t : string) : is_empty_string t = false → t ≠ "".
Proof. by destruct t. Qed.

Lemma word_of_ok (score : Q) (pair : string * quad) (word : OcrElement) :
  word_of score pair = Some word → word_ok word.
Proof.
  unfold word_of.
  destruct (is_empty_string (strip (fst pair))) eqn:Htoken; [done|].
  destruct (_quad_to_bbox (snd pair)) as [word_bbox|] eqn:Hquad; [|done].
  intros [= <-]. unfold word_ok, mk_word. simpl.
  split; [done|]. split; [exists word_bbox; eauto using quad_to_bbox_some_valid|].
  split; [eexists; eauto using is_empty_string_false|]. by split.
Qed.

Lemma build_line_ok (has_word_boxes : bool)
    (text_words : list (list string)) (text_word_regions : list (list quad))
    (i : nat) (line_text : string) (score : Q) (line_bbox : BoundingBox.t)
    (line : OcrElement) :
  build_line has_word_boxes text_words text_word_regions i line_text score line_bbox
    = Return line →
  bbox_valid line_bbox →
  line_text ≠ "" →
  ocr_class line = LINE ∧ bbox line = Some line_bbox ∧ text line = None
  ∧ Forall word_ok (children line).
Proof.
  unfold build_line. intros Hbuild Hvalid Htext.
  destruct (has_word_boxes && (i <? length text_words)%nat
            && negb (is_nil (default [] (text_words !! i)))).
  - unfold py_index, mbind, outcome_mbind, outcome_bind, mret, outcome_ret in Hbuild.
    destruct (text_words !! i) as [tokens|]; [|done].
    destruct (text_word_regions !! i) as [quads|]; [|done].
    injection Hbuild as <-. rewrite word_loop_omap. simpl.
    split; [done|]. split; [done|]. split; [done|].
    apply Forall_forall. intros word Hword.
    apply list_elem_of_omap in Hword as (pair & _ & Hword).
    by apply (word_of_ok score pair).
  - injection Hbuild as <-. simpl.
    split; [done|]. split; [done|]. split; [done|].
    repeat constructor; simpl; eauto.
Qed.

Lemma strip_nonblank_nonempty (t : string) : strip t ≠ "" → t ≠ "".
Proof. by intros H ->. Qed.

Lemma line_loop_invariant (has_word_boxes : bool)
    (text_words : list (list string)) (text_word_regions : list (list quad))
    (lines : list (string * Q * box)) (i : nat)
    (page page' : OcrElement) (text_parts text_parts' : list string) :
  line_loop has_word_boxes text_words text_word_regions i lines page text_parts
    = Return (page', text_parts') →
  ∃ cs ts,
    page' = add_children page cs ∧ text_parts' = text_parts ++ ts
    ∧ length cs = length ts ∧ (length cs ≤ length lines)%nat
    ∧ Forall line_ok cs ∧ Forall (λ t, strip t ≠ "") ts.
Proof.
  revert i page text_parts.
  induction lines as [|[[text score] b] lines IH]; intros i page text_parts Hloop.
  - injection Hloop as <- <-. exists [], [].
    rewrite add_children_nil, app_nil_r. by repeat split.
  - cbn [line_loop] in Hloop.
    assert (Hskip : ∀ page0 parts0,
      line_loop has_word_boxes text_words text_word_regions (S i) lines page0 parts0
        = Return (page', text_parts') →
      page0 = page → parts0 = text_parts →
      ∃ cs ts,
        page' = add_children page cs ∧ text_parts' = text_parts ++ ts
        ∧ length cs = length ts ∧ (length cs ≤ length ((text, score, b) :: lines))%nat
        ∧ Forall line_ok cs ∧ Forall (λ t, strip t ≠ "") ts).
    { intros page0 parts0 H -> ->.
      destruct (IH _ _ _ H) as (cs & ts & ? & ? & ? & ? & ? & ?).
      exists cs, ts. repeat split; [done..|simpl; lia|done|done]. }
    destruct (is_empty_string (strip text)) eqn:Hblank; [by eapply Hskip|].
    apply is_empty_string_false in Hblank.
    destruct (line_box_to_bbox b) as [line_bbox|] eqn:Hbox; [|by eapply Hskip].
    destruct (build_line _ _ _ i text score line_bbox) as [line|x] eqn:Hbuild; [|done].
    destruct (is_nil (children line)) eqn:Hnil; [by eapply Hskip|].
    destruct (IH _ _ _ Hloop) as (cs & ts & -> & -> & Hlen & Hle & Hcs & Hts).
    exists (line :: cs), (text :: ts).
    rewrite append_child_add, add_children_app, <- app_assoc.
    split; [done|]. split; [done|]. split; [simpl; lia|]. split; [simpl; lia|].
    split; [|by constructor].
    constructor; [|done].
    destruct (build_line_ok _ _ _ _ _ _ _ _ Hbuild) as (? & ? & ? & ?).
    { by apply (line_box_to_bbox_some_valid b). }
    { by apply strip_nonblank_nonempty. }
    unfold line_ok. split; [done|].
    split; [exists line_bbox; eauto using line_box_to_bbox_some_valid|].
    split; [done|]. split; [by destruct (children line)|done].
Qed.

Lemma length_enumerate_from {A} (i : nat) (l : list A) :
  length (enumerate_from i l) = length l.
Proof. revert i. induction l as [|x l IH]; intros i; simpl; [done|by rewrite IH]. Qed.

Lemma assemble_invariant (page page' : OcrElement) (result : list ocr_result)
    (full_text : string) :
  assemble page result = Return (page', full_text) →
  ∃ cs ts,
    page' = add_children page cs ∧ full_text = join newline ts
    ∧ length cs = length ts
    ∧ (length cs ≤ match result with
                   | [] => 0
                   | d :: _ => length (recognised_lines d)
                   end)%nat
    ∧ Forall line_ok cs ∧ Forall (λ t, strip t ≠ "") ts.
Proof.
  unfold assemble. intros Hasm.
  assert (Hnone : (page, "") = (page', full_text) →
    ∃ cs ts,
      page' = add_children page cs ∧ full_text = join newline ts
      ∧ length cs = length ts
      ∧ (length cs ≤ match result with
                     | [] => 0
                     | d :: _ => length (recognised_lines d)
                     end)%nat
      ∧ Forall line_ok cs ∧ Forall (λ t, strip t ≠ "") ts).
  { intros [= <- <-]. exists [], []. rewrite add_children_nil.
    repeat split; [simpl; lia|done|done]. }
  destruct result as [|d rest]; [injection Hasm as Hasm; by apply Hnone; f_equal|].
  destruct (dict_is_empty d); [injection Hasm as ? ?; apply Hnone; by f_equal|].
  destruct (is_nil (default [] (rec_texts d)));
    [injection Hasm as ? ?; apply Hnone; by f_equal|].
  unfold mbind, outcome_mbind, outcome_bind in Hasm.
  destruct (line_loop _ _ _ 0 _ page []) as [[p parts]|x] eqn:Hloop; [|done].
  injection Hasm as <- <-.
  destruct (line_loop_invariant _ _ _ _ _ _ _ _ _ Hloop)
    as (cs & ts & -> & -> & Hlen & Hle & Hcs & Hts).
  exists cs, ts. unfold recognised_lines. rewrite length_enumerate_from.
  by repeat split.
Qed.

Lemma generate_ocr_returns_inv (input_file : string) (options : OcrOptions)
    (page_number : Z) (w w' : world) (page : OcrElement) (full_text : string) :
  generate_ocr input_file options page_number w = (Return (page, full_text), w') →
  ∃ result,
    assemble (new_page (Image_open input_file) page_number) result
      = Return (page, full_text).
Proof.
  unfold generate_ocr, mbind, py_bind, lift.
  destruct (_get_paddle_engine options w) as [[e|x] w0]; [|done].
  destruct (predict_with_retry e input_file options w0) as [[result|x] w1]; [|done].
  intros [= H _]. eauto.
Qed.

Lemma join_empty_iff (sep : string) (ts : list string) :
  Forall (λ t, strip t ≠ "") ts → (join sep ts = "" ↔ ts = []).
Proof.
  intros Hts. destruct ts as [|t ts]; [done|].
  apply Forall_cons in Hts as [Ht _]. apply strip_nonblank_nonempty in Ht.
  split; [|done]. destruct t as [|c r]; [done|]. by destruct ts.
Qed.

(** X14. Whenever [generate_ocr] returns, the tree is well formed: a PAGE
    spanning the image from (0, 0), carrying the page number and a
    resolution, whose children are all LINEs with a box of positive width
    and height and at least one child, and whose grandchildren are all
    childless WORDs with a box of positive width and height, a text that is
    not empty and a confidence. *)
Theorem generate_ocr_tree_well_formed (input_file : string) (options : OcrOptions)
    (number : Z) (w w' : world) (page : OcrElement) (full_text : string) :
  generate_ocr input_file options number w = (Return (page, full_text), w') →
  ocr_class page = PAGE
  ∧ bbox page = Some (BoundingBox.mk 0 0
                        (inject_Z (fst (size (Image_open input_file))))
                        (inject_Z (snd (size (Image_open input_file)))))
  ∧ page_number page = Some number
  ∧ is_Some (dpi page)
  ∧ Forall line_ok (children page).
Proof.
  intros Hgen.
  destruct (generate_ocr_returns_inv _ _ _ _ _ _ _ Hgen) as (result & Hasm).
  destruct (assemble_invariant _ _ _ _ Hasm) as (cs & ts & -> & _ & _ & _ & Hcs & _).
  unfold new_page. destruct (size (Image_open input_file)) as [img_width img_height].
  simpl. by repeat split.
Qed.

(** X15. Whenever [generate_ocr] returns, the text is the newline-join of
    one text per LINE of the page, none of them blank; so the text is empty
    exactly when the page has no line. *)
Theorem generate_ocr_text_matches_lines (input_file : string) (options : OcrOptions)
    (page_number : Z) (w w' : world) (page : OcrElement) (full_text : string) :
  generate_ocr input_file options page_number w = (Return (page, full_text), w') →
  (∃ ts, full_text = join newline ts
         ∧ length ts = length (children page)
         ∧ Forall (λ t, strip t ≠ "") ts)
  ∧ (full_text = "" ↔ children page = []).
Proof.
  intros Hgen.
  destruct (generate_ocr_returns_inv _ _ _ _ _ _ _ Hgen) as (result & Hasm).
  destruct (assemble_invariant _ _ _ _ Hasm) as (cs & ts & -> & -> & Hlen & _ & _ & Hts).
  assert (Hchildren : children (add_children
            (new_page (Image_open input_file) page_number) cs) = cs).
  { unfold new_page. by destruct (size (Image_open input_file)). }
  rewrite Hchildren. split; [exists ts; by rewrite Hlen|].
  rewrite (join_empty_iff _ _ Hts).
  split; [intros ->; by destruct cs|intros ->; by destruct ts].
Qed.

(** X16. The page never gets more lines than the shortest of [rec_texts],
    [rec_scores] and [rec_boxes] has entries: what the three arrays do not
    all cover is ignored. *)
Theorem assemble_line_count_bounded (page page' : OcrElement) (d : ocr_result)
    (rest : list ocr_result) (full_text : string) :
  assemble page (d :: rest) = Return (page', full_text) →
  (length (children page') ≤ length (children page) + length (default [] (rec_texts d)))%nat
  ∧ (length (children page') ≤ length (children page) + length (default [] (rec_scores d)))%nat
  ∧ (length (children page') ≤ length (children page) + length (default [] (rec_boxes d)))%nat.
Proof.
  intros Hasm.
  destruct (assemble_invariant _ _ _ _ Hasm) as (cs & ts & -> & _ & _ & Hle & _).
  unfold recognised_lines in Hle.
  rewrite length_enumerate_from, !length_zip in Hle.
  unfold add_children. simpl. rewrite length_app. lia.
Qed.

(** ** More on the skew estimate *)

Lemma nth_in_range (P : Q → Prop) (s : list Q) (i : nat) :
  Forall P s → (i < length s)%nat → P (nth i s 0%Q).
Proof.
  intros HP Hi. eapply Forall_forall; [exact HP|].
  apply list_elem_of_In, nth_In. lia.
Qed.

Lemma Qmean_between (lo hi x y : Q) :
  (lo <= x)%Q → (x <= hi)%Q → (lo <= y)%Q → (y <= hi)%Q →
  (lo <= (x + y) / 2)%Q ∧ ((x + y) / 2 <= hi)%Q.
Proof.
  intros.
  assert (Heq : ((x + y) / 2 == (1 # 2) * (x + y))%Q) by field.
  rewrite Heq. split; lra.
Qed.

(** X17. The median lies between the smallest and the largest angle: if
    every angle is in [lo, hi], so is the estimate.  In particular equal
    angles give that angle. *)
Theorem median_between_extremes (angles : list Q) (lo hi : Q) :
  angles ≠ [] →
  Forall (λ a, (lo <= a)%Q ∧ (a <= hi)%Q) angles →
  ∃ m, median angles = Return m ∧ (lo <= m)%Q ∧ (m <= hi)%Q.
Proof.
  intros Hne Hrange.
  destruct (median_is_median angles Hne) as (m & Hm & s & Hperm & _ & ->).
  rewrite <- Hperm in Hrange. pose proof (Permutation_length Hperm) as Hlen.
  assert (Hpos : (0 < length angles)%nat) by (destruct angles; [done|simpl; lia]).
  assert (Hmid : (length angles / 2 < length angles)%nat) by (apply Nat.div_lt; lia).
  eexists. split; [exact Hm|].
  pose proof (nth_in_range _ s (length angles / 2) Hrange) as H1.
  pose proof (nth_in_range _ s (length angles / 2 - 1) Hrange) as H0.
  cbv beta in H0, H1.
  destruct (length angles mod 2 =? 0)%nat.
  - destruct H0 as [? ?]; [lia|]. destruct H1 as [? ?]; [lia|].
    by apply Qmean_between.
  - destruct H1 as [? ?]; [lia|]. done.
Qed.

Lemma count_equal_split (a : Q) (s : list Q) (k : nat) :
  count_equal a s = (count_equal a (take k s) + count_equal a (drop k s))%nat.
Proof.
  unfold count_equal. rewrite <- (take_drop k s) at 1.
  by rewrite filter_app, length_app.
Qed.

Lemma count_equal_none (a : Q) (s : list Q) :
  Forall (λ x, ¬ (x == a)%Q) s → count_equal a s = 0%nat.
Proof.
  unfold count_equal. induction 1 as [|x s Hx _ IH]; [done|].
  rewrite filter_cons. by destruct (decide (x == a)%Q).
Qed.

Lemma count_equal_le (a : Q) (s : list Q) : (count_equal a s ≤ length s)%nat.
Proof. apply length_filter. Qed.

(** In a sorted list, an entry above [a] has all entries equal to [a]
    before it, and an entry below [a] has them all after it. *)
Lemma sorted_count_above (a : Q) (s : list Q) (k : nat) :
  Sorted Qle s → (k < length s)%nat → (a < nth k s 0)%Q →
  (count_equal a s ≤ k)%nat.
Proof.
  intros Hs Hk Ha. apply Sorted_StronglySorted in Hs; [|apply _].
  rewrite (count_equal_split a s k).
  rewrite <- (take_drop k s) in Hs. apply StronglySorted_app_1_r in Hs.
  destruct (lookup_lt_is_Some_2 s k Hk) as [x Hx].
  rewrite (nth_lookup_Some _ _ 0%Q _ Hx) in Ha.
  rewrite (drop_S _ _ _ Hx) in Hs |- *.
  apply StronglySorted_inv in Hs as [_ Hall].
  rewrite (count_equal_none a (x :: _)).
  - pose proof (count_equal_le a (take k s)). rewrite length_take in H. lia.
  - constructor; [intros Heq; rewrite Heq in Ha; by apply Qlt_irrefl in Ha|].
    eapply Forall_impl; [exact Hall|]. intros y Hy Heq. simpl in Hy.
    rewrite Heq in Hy. lra.
Qed.

Lemma sorted_count_below (a : Q) (s : list Q) (k : nat) :
  Sorted Qle s → (k < length s)%nat → (nth k s 0 < a)%Q →
  (count_equal a s ≤ length s - S k)%nat.
Proof.
  intros Hs Hk Ha. apply Sorted_StronglySorted in Hs; [|apply _].
  rewrite (count_equal_split a s (S k)).
  destruct (lookup_lt_is_Some_2 s k Hk) as [x Hx].
  rewrite (nth_lookup_Some _ _ 0%Q _ Hx) in Ha.
  rewrite (count_equal_none a (take (S k) s)).
  - pose proof (count_equal_le a (drop (S k) s)). rewrite length_drop in H. lia.
  - rewrite (take_S_r _ _ _ Hx). apply Forall_app. split.
    + apply Forall_forall. intros y Hy Heq.
      rewrite <- (take_drop k s), (drop_S _ _ _ Hx) in Hs.
      assert (y <= x)%Q.
      { eapply (StronglySorted_app_1_elem_of _ _ _ _ _ Hs); [exact Hy|left]. }
      rewrite Heq in H. lra.
    + constructor; [|done]. intros Heq. rewrite Heq in Ha. by apply Qlt_irrefl in Ha.
Qed.

Lemma sorted_majority_entry (a : Q) (s : list Q) (k : nat) :
  Sorted Qle s → (k < length s)%nat →
  (k < count_equal a s)%nat →
  (length s - S k < count_equal a s)%nat →
  (nth k s 0 == a)%Q.
Proof.
  intros Hs Hk Hlow Hhigh.
  destruct (Q_dec (nth k s 0%Q) a) as [[Hlt|Hgt]|Heq]; [| |done].
  - pose proof (sorted_count_below a s k Hs Hk Hlt). lia.
  - pose proof (sorted_count_above a s k Hs Hk Hgt). lia.
Qed.

(** X18. The estimate follows the majority: when more than half of the
    angles equal [a], the median equals [a], whatever the other angles
    are. *)
Theorem median_of_majority (angles : list Q) (a : Q) :
  (length angles < 2 * count_equal a angles)%nat →
  ∃ m, median angles = Return m ∧ (m == a)%Q.
Proof.
  intros Hmajority.
  assert (Hne : angles ≠ []) by (intros ->; simpl in Hmajority; lia).
  destruct (median_is_median angles Hne) as (m & Hm & s & Hperm & Hsorted & ->).
  pose proof (Permutation_length Hperm) as Hlen.
  assert (Hcount : count_equal a s = count_equal a angles).
  { unfold count_equal. by rewrite Hperm. }
  exists (if (length angles mod 2 =? 0)%nat
          then ((nth (length angles / 2 - 1) s 0 + nth (length angles / 2) s 0) / 2)%Q
          else nth (length angles / 2) s 0%Q).
  split; [exact Hm|].
  assert (Hpos : (0 < length angles)%nat) by (destruct angles; [done|simpl; lia]).
  pose proof (Nat.div_mod_eq (length angles) 2) as Hdiv.
  pose proof (Nat.mod_upper_bound (length angles) 2) as Hmod.
  destruct (length angles mod 2 =? 0)%nat eqn:Hparity.
  - apply Nat.eqb_eq in Hparity.
    assert (H0 : (nth (length angles / 2 - 1) s 0 == a)%Q)
      by (apply sorted_majority_entry; [done|lia..]).
    assert (H1 : (nth (length angles / 2) s 0 == a)%Q)
      by (apply sorted_majority_entry; [done|lia..]).
    rewrite H0, H1. field.
  - apply Nat.eqb_neq in Hparity.
    apply sorted_majority_entry; [done|lia..].
Qed.

(** ** More on geometry and words *)

(** X21. For the four corners of an upright rectangle with [x1 < x2] and
    [y1 < y2], [_quad_to_bbox] returns the rectangle itself, the same box
    that the inline conversion makes of the row [x1, y1, x2, y2]. *)
Theorem quad_of_rectangle_is_line_box (x1 y1 x2 y2 : Q) :
  (x1 < x2)%Q → (y1 < y2)%Q →
  _quad_to_bbox ((x1, y1), (x2, y1), (x2, y2), (x1, y2))
    = Some (BoundingBox.mk x1 y1 x2 y2)
  ∧ line_box_to_bbox (x1, y1, x2, y2) = Some (BoundingBox.mk x1 y1 x2 y2).
Proof.
  intros Hx Hy.
  assert (Qltb x2 x1 = false) by (apply Qltb_false; lra).
  assert (Qltb x1 x1 = false) by (apply Qltb_false; lra).
  assert (Qltb x1 x2 = true) by (by apply Qltb_true).
  assert (Qltb x2 x2 = false) by (apply Qltb_false; lra).
  assert (Qltb y2 y1 = false) by (apply Qltb_false; lra).
  assert (Qltb y1 y1 = false) by (apply Qltb_false; lra).
  assert (Qltb y1 y2 = true) by (by apply Qltb_true).
  assert (Qltb y2 y2 = false) by (apply Qltb_false; lra).
  assert (Hbx : Qle_bool x2 x1 = false) by (by apply Qle_bool_false).
  assert (Hby : Qle_bool y2 y1 = false) by (by apply Qle_bool_false).
  unfold _quad_to_bbox, line_box_to_bbox, py_min, py_max. cbn [foldl fst snd].
  repeat match goal with H : Qltb _ _ = _ |- _ => rewrite !H; clear H end.
  by rewrite Hbx, Hby.
Qed.




(** ** White space, boxes and quads, as the properties name them *)

Lemma chars_append (a b : string) : chars (a +:+ b) = chars a ++ chars b.
Proof. induction a as [|c a IH]; [done|]. unfold chars in *. simpl. by rewrite IH. Qed.

Lemma blank_empty : blank "".
Proof. constructor. Qed.

Lemma blank_cons (c : ascii) (s : string) :
  blank (String c s) ↔ isspace c = true ∧ blank s.
Proof.
  unfold blank, chars. simpl. apply (Forall_cons (λ a, isspace a = true)).
Qed.

Lemma blank_append (a b : string) : blank (a +:+ b) ↔ blank a ∧ blank b.
Proof.
  unfold blank. rewrite chars_append. apply (Forall_app (λ c, isspace c = true)).
Qed.

Lemma lstrip_split (s : string) :
  ∃ pre, s = pre +:+ lstrip s ∧ blank pre
         ∧ ∀ c r, lstrip s = String c r → isspace c = false.
Proof.
  induction s as [|a s IH].
  - exists "". split; [done|]. split; [apply blank_empty|done].
  - destruct IH as (pre & Hs & Hpre & Hhead).
    simpl. destruct (isspace a) eqn:Ha.
    + exists (String a pre).
      split; [change (String a s = String a (pre +:+ lstrip s)); congruence|].
      split; [by apply blank_cons|done].
    + exists "". split; [done|]. split; [apply blank_empty|].
      intros c r Heq. injection Heq as <- _. done.
Qed.

Lemma rstrip_split (s : string) :
  ∃ post, s = rstrip s +:+ post ∧ blank post
          ∧ ∀ r c, rstrip s = r +:+ String c "" → isspace c = false.
Proof.
  induction s as [|a s IH].
  - exists "". split; [done|]. split; [apply blank_empty|].
    intros r c Heq. by destruct r.
  - destruct IH as (post & Hs & Hpost & Hlast).
    simpl. destruct (isspace a && is_empty_string (rstrip s)) eqn:Ha.
    + apply andb_prop in Ha as [Ha Hempty].
      destruct (rstrip s) as [|a' s'] eqn:Hr; [|done].
      exists (String a post).
      split; [change (String a s = String a ("" +:+ post)); congruence|].
      split; [by apply blank_cons|].
      intros r c Heq. by destruct r.
    + exists post.
      split; [change (String a s = String a (rstrip s +:+ post)); congruence|].
      split; [done|].
      intros r c Heq. destruct r as [|a0 r0]; simpl in Heq.
      * injection Heq as <- Hr. rewrite Hr in Ha. simpl in Ha.
        by rewrite andb_true_r in Ha.
      * injection Heq as _ Hr. by apply (Hlast r0).
Qed.

Lemma rstrip_head (s : string) (c : ascii) (r : string) :
  rstrip s = String c r → ∃ r', s = String c r'.
Proof.
  destruct s as [|c0 s]; [done|]. simpl.
  destruct (isspace c0 && is_empty_string (rstrip s)); [done|].
  intros [= <- _]. eauto.
Qed.

Lemma strip_trimmed (s : string) : trimmed s (strip s).
Proof.
  unfold strip.
  destruct (lstrip_split s) as (pre & Hs & Hpre & Hhead).
  destruct (rstrip_split (lstrip s)) as (post & Hl & Hpost & Hlast).
  exists pre, post. split; [by rewrite <- Hl|]. split; [done|]. split; [done|].
  split; [|done].
  intros c r Hstrip. destruct (rstrip_head _ _ _ Hstrip) as [r' Hr'].
  by apply (Hhead c r').
Qed.

Lemma strip_empty_iff_blank (s : string) :
  is_empty_string (strip s) = true ↔ blank s.
Proof.
  destruct (strip_trimmed s) as (pre & post & Hs & Hpre & Hpost & Hhead & _).
  split.
  - intros Hempty. destruct (strip s) as [|? ?]; [|done].
    rewrite Hs. apply blank_append. split; [done|]. exact Hpost.
  - intros Hblank. destruct (strip s) as [|c r]; [done|]. exfalso.
    rewrite Hs in Hblank.
    apply blank_append in Hblank as [_ Hblank].
    apply blank_append in Hblank as [Hblank _].
    apply blank_cons in Hblank as [Hc _].
    rewrite (Hhead c r eq_refl) in Hc. done.
Qed.

Lemma strip_nonempty_iff_not_blank (s : string) :
  is_empty_string (strip s) = false ↔ ¬ blank s.
Proof.
  rewrite <- strip_empty_iff_blank. by destruct (is_empty_string (strip s)).
Qed.

Lemma spread_iff (l r : Q) (xs : list Q) :
  least l xs → greatest r xs → ((l < r)%Q ↔ spread xs).
Proof.
  intros [Hl Hleast] [Hr Hgreatest]. unfold spread. split.
  - intros Hlt. apply Exists_exists. exists l. split; [done|].
    apply Exists_exists. by exists r.
  - intros (x & Hx & (x' & Hx' & Hlt)%Exists_exists)%Exists_exists.
    rewrite Forall_forall in Hleast, Hgreatest.
    pose proof (Hleast x Hx). pose proof (Hgreatest x' Hx'). lra.
Qed.

Lemma quad_to_bbox_enclosing (q : quad) :
  match _quad_to_bbox q with
  | None => ¬ quad_nondegenerate q
  | Some bb => encloses bb q ∧ quad_nondegenerate q
  end.
Proof.
  destruct q as [[[p1 p2] p3] p4].
  pose proof (py_min_least (fst p1) [fst p2; fst p3; fst p4]) as Hl.
  pose proof (py_max_greatest (fst p1) [fst p2; fst p3; fst p4]) as Hr.
  pose proof (py_min_least (snd p1) [snd p2; snd p3; snd p4]) as Ht.
  pose proof (py_max_greatest (snd p1) [snd p2; snd p3; snd p4]) as Hb.
  pose proof (spread_iff _ _ _ Hl Hr) as Hx.
  pose proof (spread_iff _ _ _ Ht Hb) as Hy.
  unfold _quad_to_bbox, quad_nondegenerate, encloses, quad_xs, quad_ys.
  revert Hl Hr Ht Hb Hx Hy.
  set (l := py_min (fst p1) _). set (r := py_max (fst p1) _).
  set (t := py_min (snd p1) _). set (b := py_max (snd p1) _).
  clearbody l r t b. intros Hl Hr Ht Hb Hx Hy.
  destruct (Qle_bool r l) eqn:Hrl; simpl.
  { apply Qle_bool_iff in Hrl. intros [Hsx _]. apply Hx in Hsx. lra. }
  destruct (Qle_bool b t) eqn:Hbt; simpl.
  { apply Qle_bool_iff in Hbt. intros [_ Hsy]. apply Hy in Hsy. lra. }
  apply Qle_bool_false in Hrl, Hbt.
  split; [done|]. split; [by apply Hx|by apply Hy].
Qed.

Lemma line_box_to_bbox_nondegenerate (b : box) :
  match line_box_to_bbox b with
  | None => ¬ box_nondegenerate b
  | Some bb => bb = box_bbox b ∧ box_nondegenerate b
  end.
Proof.
  destruct b as [[[x1 y1] x2] y2].
  pose proof (line_box_to_bbox_cases x1 y1 x2 y2) as Hcases.
  destruct (line_box_to_bbox (x1, y1, x2, y2)) as [bb|]; simpl.
  - by destruct Hcases as (-> & ? & ?).
  - intros [? ?]. destruct Hcases; lra.
Qed.

(** ** Lines and words, against the independent notions *)

Lemma word_of_cases (score : Q) (p : string * quad) :
  match word_of score p with
  | None => ¬ valid_pair p
  | Some word => valid_pair p ∧ word_for score p word
  end.
Proof.
  unfold word_of, valid_pair.
  destruct (is_empty_string (strip (fst p))) eqn:Htoken.
  { apply strip_empty_iff_blank in Htoken. by intros [? _]. }
  apply strip_nonempty_iff_not_blank in Htoken.
  pose proof (quad_to_bbox_enclosing (snd p)) as Hquad.
  destruct (_quad_to_bbox (snd p)) as [bb|]; [|by intros [_ ?]].
  destruct Hquad as [Henc Hnd]. split; [done|].
  unfold word_for, mk_word. simpl. split; [done|].
  split; [exists (strip (fst p)); split; [done|apply strip_trimmed]|].
  split; [by exists bb|done].
Qed.

Lemma omap_word_of_filter (score : Q) (pairs : list (string * quad)) :
  Forall2 (word_for score) (filter valid_pair pairs) (omap (word_of score) pairs).
Proof.
  induction pairs as [|p pairs IH]; [constructor|].
  cbn [omap list_omap]. rewrite filter_cons.
  pose proof (word_of_cases score p) as Hp.
  destruct (word_of score p) as [word|].
  - destruct Hp as [Hvalid Hword]. rewrite decide_True by done. by constructor.
  - by rewrite decide_False.
Qed.

Lemma omap_word_of_nil (score : Q) (pairs : list (string * quad)) :
  is_nil (omap (word_of score) pairs) = true ↔ ¬ Exists valid_pair pairs.
Proof.
  induction pairs as [|p pairs IH]; [split; [by intros _ ?%Exists_nil|done]|].
  cbn [omap list_omap]. rewrite Exists_cons.
  pose proof (word_of_cases score p) as Hp.
  destruct (word_of score p) as [word|].
  - destruct Hp as [Hvalid _]. split; [done|]. intros H. destruct H. by left.
  - rewrite IH. split; [intros Hn [?|?]; done|intros Hn ?; apply Hn; by right].
Qed.

Lemma omap_word_of_confidence (score : Q) (pairs : list (string * quad)) :
  Forall (λ word, confidence word = Some score) (omap (word_of score) pairs).
Proof.
  apply Forall_forall. intros word (p & _ & Hword)%list_elem_of_omap.
  pose proof (word_of_cases score p) as Hp. rewrite Hword in Hp.
  by destruct Hp as (_ & _ & _ & _ & ? & _).
Qed.

Lemma build_line_cases (d : ocr_result) (i : nat) (line_text : string) (score : Q)
    (line_bbox : BoundingBox.t) :
  build_line (word_boxes_present d)
             (default [] (text_word d)) (default [] (text_word_region d))
             i line_text score line_bbox =
    match word_detail d i with
    | None =>
        Return (mkOcrElement LINE (Some line_bbox) None None None None
                  [mk_word line_bbox line_text score])
    | Some (tokens, None) => Raise IndexError
    | Some (tokens, Some quads) =>
        Return (mkOcrElement LINE (Some line_bbox) None None None None
                  (omap (word_of score) (zip tokens quads)))
    end.
Proof.
  unfold build_line, word_detail, word_boxes_present.
  destruct (default [] (text_word d)) as [|tw0 tw]; [done|].
  destruct (default [] (text_word_region d)) as [|r0 rs]; [done|].
  cbn [is_nil negb andb].
  destruct ((tw0 :: tw) !! i) as [tokens|] eqn:Htokens.
  - pose proof (lookup_lt_Some _ _ _ Htokens) as Hi.
    assert (Hlt : (i <? length (tw0 :: tw))%nat = true) by (apply Nat.ltb_lt; lia).
    rewrite Hlt. cbn [default]. destruct tokens as [|t ts]; [done|].
    cbn [is_nil negb andb]. unfold py_index. rewrite Htokens.
    destruct ((r0 :: rs) !! i) as [quads|]; [|done].
    cbn -[zip word_loop]. by rewrite word_loop_omap.
  - apply lookup_ge_None in Htokens.
    assert (Hge : (i <? length (tw0 :: tw))%nat = false) by (apply Nat.ltb_ge; lia).
    by rewrite Hge.
Qed.

(** One turn of the line loop: the line makes the loop raise, or is
    skipped, or is attached with its text. *)
Lemma line_loop_step (d : ocr_result) (i : nat) (line_text : string) (score : Q)
    (b : box) (lines : list (string * Q * box))
    (page : OcrElement) (text_parts : list string) :
  let loop := line_loop (word_boxes_present d)
                (default [] (text_word d)) (default [] (text_word_region d)) in
  let entry := (i, (line_text, score, b)) in
  (line_faults d entry ∧ ¬ line_kept d entry
   ∧ loop i ((line_text, score, b) :: lines) page text_parts = Raise IndexError)
  ∨ (¬ line_faults d entry ∧ ¬ line_kept d entry
     ∧ loop i ((line_text, score, b) :: lines) page text_parts
       = loop (S i) lines page text_parts)
  ∨ (¬ line_faults d entry ∧ line_kept d entry
     ∧ ∃ line, line_matches d entry line
         ∧ loop i ((line_text, score, b) :: lines) page text_parts
           = loop (S i) lines (add_children page [line]) (text_parts ++ [line_text])).
Proof.
  intros loop entry. unfold loop, entry. cbn [line_loop line_faults line_kept].
  destruct (is_empty_string (strip line_text)) eqn:Hblank.
  { apply strip_empty_iff_blank in Hblank. right; left.
    split; [by intros [? _]|]. split; [by intros [? _]|done]. }
  apply strip_nonempty_iff_not_blank in Hblank.
  pose proof (line_box_to_bbox_nondegenerate b) as Hbox.
  destruct (line_box_to_bbox b) as [line_bbox|].
  2:{ right; left. split; [by intros (_ & ? & _)|]. split; [by intros (_ & ? & _)|done]. }
  destruct Hbox as [-> Hnd]. rewrite build_line_cases.
  unfold line_matches, line_for, line_words. cbn [snd fst].
  destruct (word_detail d i) as [[tokens [quads|]]|] eqn:Hdetail.
  - cbn [children]. destruct (is_nil (omap (word_of score) (zip tokens quads))) eqn:Hnil.
    + apply omap_word_of_nil in Hnil. right; left.
      split; [by intros (_ & _ & ? & [=])|]. split; [by intros (_ & _ & ?)|done].
    + right; right. split; [by intros (_ & _ & ? & [=])|].
      assert (Hex : Exists valid_pair (zip tokens quads)).
      { destruct (decide (Exists valid_pair (zip tokens quads))) as [|Hn]; [done|].
        apply (omap_word_of_nil score) in Hn. congruence. }
      split; [done|]. eexists. split; [|by rewrite append_child_add].
      cbn [ocr_class bbox children]. split.
      * split; [done|]. split; [done|]. intros Hnone. by rewrite Hnone in Hnil.
      * split; [apply omap_word_of_confidence|apply omap_word_of_filter].
  - left. split; [split; [done|]; split; [done|]; by exists tokens|].
    split; [by intros (_ & _ & ?)|done].
  - cbn [children is_nil mk_word]. right; right.
    split; [by intros (_ & _ & ? & [=])|]. split; [done|].
    eexists. split; [|by rewrite append_child_add].
    cbn [ocr_class bbox children]. split; [done|].
    split; [by repeat constructor|done].
Qed.

Lemma line_loop_spec (d : ocr_result) (lines : list (string * Q * box)) (i : nat)
    (page : OcrElement) (text_parts : list string) :
  let loop := line_loop (word_boxes_present d)
                (default [] (text_word d)) (default [] (text_word_region d)) in
  (Exists (line_faults d) (enumerate_from i lines) →
   loop i lines page text_parts = Raise IndexError)
  ∧ (¬ Exists (line_faults d) (enumerate_from i lines) →
     ∃ ls,
       loop i lines page text_parts =
         Return (add_children page ls,
                 text_parts ++
                   (entry_text <$> filter (line_kept d) (enumerate_from i lines)))
       ∧ Forall2 (line_matches d) (filter (line_kept d) (enumerate_from i lines)) ls).
Proof.
  intros loop. revert i page text_parts.
  induction lines as [|[[line_text score] b] lines IH]; intros i page text_parts.
  { split; [by intros ?%Exists_nil|]. intros _. exists [].
    unfold loop. simpl. rewrite add_children_nil, app_nil_r. split; [done|constructor]. }
  cbn [enumerate_from]. rewrite Exists_cons, filter_cons.
  destruct (line_loop_step d i line_text score b lines page text_parts)
    as [(Hf & Hk & Hstep)|[(Hf & Hk & Hstep)|(Hf & Hk & line & Hline & Hstep)]];
    fold loop in Hstep; rewrite Hstep.
  - split; [done|]. intros Hn. destruct Hn. by left.
  - rewrite decide_False by done.
    destruct (IH (S i) page text_parts) as [IHf IHr].
    split; [intros [?|?]; [done|by apply IHf]|].
    intros Hn. apply IHr. intros ?. apply Hn. by right.
  - rewrite decide_True by done.
    destruct (IH (S i) (add_children page [line]) (text_parts ++ [line_text]))
      as [IHf IHr].
    split; [intros [?|?]; [done|by apply IHf]|].
    intros Hn. destruct IHr as (ls & Hloop & Hls); [intros ?; apply Hn; by right|].
    exists (line :: ls). rewrite Hloop, add_children_app, <- app_assoc.
    split; [done|by constructor].
Qed.

Lemma assemble_spec (page : OcrElement) (d : ocr_result) (rest : list ocr_result) :
  (Exists (line_faults d) (recognised_lines d) →
   assemble page (d :: rest) = Raise IndexError)
  ∧ (¬ Exists (line_faults d) (recognised_lines d) →
     ∃ ls,
       assemble page (d :: rest) =
         Return (add_children page ls,
                 join newline
                   (entry_text <$> filter (line_kept d) (recognised_lines d)))
       ∧ Forall2 (line_matches d) (filter (line_kept d) (recognised_lines d)) ls).
Proof.
  unfold assemble, recognised_lines.
  destruct (dict_is_empty d) eqn:Hempty.
  { unfold dict_is_empty in Hempty.
    repeat (apply andb_prop in Hempty as [Hempty ?]).
    repeat match goal with H : bool_decide _ = true |- _ =>
      apply bool_decide_eq_true in H; rewrite H end.
    split; [by intros ?%Exists_nil|]. intros _. exists [].
    rewrite add_children_nil. split; [done|constructor]. }
  destruct (default [] (rec_texts d)) as [|t ts] eqn:Htexts.
  { split; [by intros ?%Exists_nil|]. intros _. exists [].
    rewrite add_children_nil. split; [done|constructor]. }
  cbn [is_nil]. fold (word_boxes_present d).
  destruct (line_loop_spec d
              (zip (zip (t :: ts) (default [] (rec_scores d))) (default [] (rec_boxes d)))
              0 page []) as [Hf Hr].
  split.
  - intros Hfault. by rewrite (Hf Hfault).
  - intros Hn. destruct (Hr Hn) as (ls & Hloop & Hls).
    exists ls. by rewrite Hloop.
Qed.

(** C5. Let [generate_ocr] have acquired the engine and obtained [result]
    from [predict] (directly or by a retry).  An empty [result] gives the
    bare page and the empty text.  Otherwise let the lines be the entries of
    [enumerate(zip(rec_texts, rec_scores, rec_boxes))] of the first
    dictionary.  If some line with a non-blank text and a non-degenerate box
    has tokens but no entry in [text_word_region], [generate_ocr] raises
    [IndexError].  If not, it returns, and the page's children are the LINE
    nodes, in order, of exactly the lines with a non-blank text, a box with
    [x1 < x2] and [y1 < y2], and a WORD child (always without word-level
    detail; with it, when a token that is not blank is paired with a quad
    that is not degenerate); each of these LINEs has the line's box and at
    least one child; and the text is the texts of exactly these lines, in
    order, joined with newlines. *)
Theorem generate_ocr_attaches_lines_with_words (input_file : string)
    (options : OcrOptions) (page_number : Z) (w w0 w1 : world) (e : engine)
    (result : list ocr_result) :
  _get_paddle_engine options w = (Return e, w0) →
  predict_with_retry e input_file options w0 = (Return result, w1) →
  match result with
  | [] =>
      generate_ocr input_file options page_number w
        = (Return (new_page (Image_open input_file) page_number, ""), w1)
  | d :: _ =>
      (Exists (line_faults d) (recognised_lines d) →
       generate_ocr input_file options page_number w = (Raise IndexError, w1))
      ∧ (¬ Exists (line_faults d) (recognised_lines d) →
         ∃ lines,
           generate_ocr input_file options page_number w =
             (Return (add_children (new_page (Image_open input_file) page_number) lines,
                      join newline
                        (entry_text <$> filter (line_kept d) (recognised_lines d))),
              w1)
           ∧ Forall2 line_for (filter (line_kept d) (recognised_lines d)) lines)
  end.
Proof.
  intros Hget Hpredict.
  rewrite (generate_ocr_acquired _ _ _ _ _ _ Hget).
  unfold mbind, py_bind. rewrite Hpredict. unfold lift.
  destruct result as [|d rest]; [done|].
  destruct (assemble_spec (new_page (Image_open input_file) page_number) d rest)
    as [Hfault Hreturn].
  split.
  - intros Hf. by rewrite (Hfault Hf).
  - intros Hn. destruct (Hreturn Hn) as (lines & Hasm & Hlines).
    exists lines. rewrite Hasm. split; [done|].
    eapply Forall2_impl; [exact Hlines|]. by intros entry line [? _].
Qed.

(** C8. Let [generate_ocr] have acquired the engine and obtained a result
    whose first dictionary is [d], in which no line with a non-blank text
    and a non-degenerate box has tokens without an entry in
    [text_word_region].  Then [generate_ocr] returns, and for each LINE of
    the page, in order: every WORD child carries the line's score; when
    word-level detail is present and not empty for the line, the children
    are, in order, one WORD for each positional (token, quad) pair whose
    token is not blank and whose quad is not degenerate, with the trimmed
    token as text and the quad's enclosing box; otherwise there is exactly
    one WORD, with the line's box and the whole line text. *)
Theorem generate_ocr_words_inherit_line_score (input_file : string)
    (options : OcrOptions) (page_number : Z) (w w0 w1 : world) (e : engine)
    (d : ocr_result) (rest : list ocr_result) :
  _get_paddle_engine options w = (Return e, w0) →
  predict_with_retry e input_file options w0 = (Return (d :: rest), w1) →
  ¬ Exists (line_faults d) (recognised_lines d) →
  ∃ lines full_text,
    generate_ocr input_file options page_number w =
      (Return (add_children (new_page (Image_open input_file) page_number) lines,
               full_text),
       w1)
    ∧ Forall2 (λ entry line, line_words d entry (children line))
              (filter (line_kept d) (recognised_lines d)) lines.
Proof.
  intros Hget Hpredict Hn.
  rewrite (generate_ocr_acquired _ _ _ _ _ _ Hget).
  unfold mbind, py_bind. rewrite Hpredict. unfold lift.
  destruct (assemble_spec (new_page (Image_open input_file) page_number) d rest)
    as [_ Hreturn].
  destruct (Hreturn Hn) as (lines & Hasm & Hlines).
  exists lines. eexists. rewrite Hasm. split; [done|].
  eapply Forall2_impl; [exact Hlines|]. by intros entry line [_ ?].
Qed.

(** X23. A line with word-level detail none of whose (token, quad) pairs
    has both a token that is not blank and a quad that is not degenerate is
    passed over by the line loop: the page and the texts collected so far
    stay as they are, whatever the line's own text and box. *)
Theorem line_without_valid_word_dropped (d : ocr_result) (i : nat)
    (tokens : list string) (quads : list quad)
    (line_text : string) (score : Q) (b : box)
    (lines : list (string * Q * box)) (page : OcrElement) (text_parts : list string) :
  word_detail d i = Some (tokens, Some quads) →
  Forall (λ p, ¬ valid_pair p) (zip tokens quads) →
  line_loop (word_boxes_present d)
            (default [] (text_word d)) (default [] (text_word_region d))
            i ((line_text, score, b) :: lines) page text_parts
  = line_loop (word_boxes_present d)
              (default [] (text_word d)) (default [] (text_word_region d))
              (S i) lines page text_parts.
Proof.
  intros Hdetail Hnone.
  destruct (line_loop_step d i line_text score b lines page text_parts)
    as [(Hf & _)|[(_ & _ & Hstep)|(_ & Hk & _)]]; [|done|].
  - destruct Hf as (_ & _ & tokens' & Hf). congruence.
  - exfalso. cbn [line_kept] in Hk. rewrite Hdetail in Hk.
    destruct Hk as (_ & _ & Hex).
    apply Exists_exists in Hex as (p & Hp & Hvalid).
    rewrite Forall_forall in Hnone. by apply (Hnone p).
Qed.

End Engine.

(** ** Worked instances *)

Lemma get_paddle_engine_idempotent_rebuild_on_change_witness :
  _get_paddle_engine Samples.init_ok Samples.opts_eng
      (snd (_get_paddle_engine Samples.init_ok Samples.opts_eng Samples.fresh_world))
    = (Return Samples.engine_en,
       snd (_get_paddle_engine Samples.init_ok Samples.opts_eng Samples.fresh_world))
  ∧ fst (_get_paddle_engine Samples.init_ok Samples.opts_kor
           (snd (_get_paddle_engine Samples.init_ok Samples.opts_eng Samples.fresh_world)))
    = Return Samples.engine_korean.
Proof.
  destruct (get_paddle_engine_idempotent_rebuild_on_change
              Samples.init_ok Samples.opts_eng Samples.opts_eng Samples.opts_kor
              Samples.fresh_world
              (snd (_get_paddle_engine Samples.init_ok Samples.opts_eng Samples.fresh_world))
              Samples.engine_en)
    as (Hsame & _ & Hother).
  - reflexivity.
  - reflexivity.
  - vm_compute. discriminate.
  - reflexivity.
  - split; [exact Hsame|]. rewrite Hother. reflexivity.
Defined.

(** C1. The environment override is not restored when construction raises.
    With [OMP_THREAD_LIMIT=1] set and a constructor that rejects the
    language, [_create_paddle_engine] raises and the override is gone from
    the environment afterwards. *)
Theorem create_paddle_engine_raise_loses_override :
  environ Samples.limited_world !! "OMP_THREAD_LIMIT" = Some "1"
  ∧ fst (_create_paddle_engine Samples.init_rejects "xyz" Samples.limited_world)
    = Raise ValueError
  ∧ environ (snd (_create_paddle_engine Samples.init_rejects "xyz" Samples.limited_world))
      !! "OMP_THREAD_LIMIT" = None.
Proof.
  rewrite (create_paddle_engine_raises Samples.init_rejects "xyz" Samples.limited_world
             ValueError eq_refl).
  simpl. split; [done|]. split; [done|]. apply lookup_delete_eq.
Qed.

Lemma generate_ocr_runtime_fault_retries_once_witness :
  Samples.predict_stale_once 0 Samples.engine_en "page.png" true = Raise RuntimeError
  ∧ fst (generate_ocr Samples.init_ok Samples.predict_stale_once Samples.page_image
           "page.png" Samples.opts_eng 0 Samples.fresh_world)
    = Return (Samples.hello_page, "Hello World")
  ∧ events (snd (generate_ocr Samples.init_ok Samples.predict_stale_once Samples.page_image
                   "page.png" Samples.opts_eng 0 Samples.fresh_world))
    = [EvConstruct Samples.engine_en;
       EvPredict Samples.engine_en "page.png" true;
       EvLogDebug "PaddlePaddle inference failed, recreating engine";
       EvConstruct (mkEngine 1 "en" false false true);
       EvPredict (mkEngine 1 "en" false false true) "page.png" true].
Proof.
  destruct (generate_ocr_runtime_fault_retries_once
              Samples.init_ok Samples.predict_stale_once Samples.page_image
              "page.png" Samples.opts_eng 0 Samples.fresh_world
              (snd (_get_paddle_engine Samples.init_ok Samples.opts_eng Samples.fresh_world))
              Samples.engine_en eq_refl eq_refl eq_refl) as [Hgen _].
  rewrite Hgen. split; [reflexivity|]. split; reflexivity.
Defined.

Lemma generate_ocr_data_shape_fault_retries_plain_witness :
  Samples.predict_word_box_bug 0 Samples.engine_en "page.png" true = Raise KeyError
  ∧ fst (generate_ocr Samples.init_ok Samples.predict_word_box_bug Samples.page_image
           "page.png" Samples.opts_eng 0 Samples.fresh_world)
    = Return (Samples.hello_page, "Hello World")
  ∧ events (snd (generate_ocr Samples.init_ok Samples.predict_word_box_bug Samples.page_image
                   "page.png" Samples.opts_eng 0 Samples.fresh_world))
    = [EvConstruct Samples.engine_en;
       EvPredict Samples.engine_en "page.png" true;
       EvPredict Samples.engine_en "page.png" false].
Proof.
  rewrite (generate_ocr_data_shape_fault_retries_plain
             Samples.init_ok Samples.predict_word_box_bug Samples.page_image
             "page.png" Samples.opts_eng 0 Samples.fresh_world
             (snd (_get_paddle_engine Samples.init_ok Samples.opts_eng Samples.fresh_world))
             Samples.engine_en eq_refl eq_refl).
  split; [reflexivity|]. split; reflexivity.
Defined.

(** C3 as stated fails: when the retry without word boxes raises a
    data-shape fault as well, that [KeyError] reaches the caller of
    [generate_ocr]. *)
Lemma generate_ocr_data_shape_fault_can_surface :
  Samples.predict_key_error 0 Samples.engine_en "page.png" true = Raise KeyError
  ∧ fst (generate_ocr Samples.init_ok Samples.predict_key_error Samples.page_image
           "page.png" Samples.opts_eng 0 Samples.fresh_world)
    = Raise KeyError
  ∧ events (snd (generate_ocr Samples.init_ok Samples.predict_key_error Samples.page_image
                   "page.png" Samples.opts_eng 0 Samples.fresh_world))
    = [EvConstruct Samples.engine_en;
       EvPredict Samples.engine_en "page.png" true;
       EvPredict Samples.engine_en "page.png" false].
Proof. split; [reflexivity|]. split; reflexivity. Qed.

Lemma get_orientation_top_label_score_times_15_witness :
  ∃ oc,
    get_orientation Samples.clf_sideways "page.png" Samples.opts_eng Samples.fresh_world
      = (Return oc, Samples.fresh_world)
    ∧ angle oc = 90%Z
    ∧ oc_confidence oc = (0.9 * 15)%Q
    ∧ (0 <= oc_confidence oc)%Q ∧ (oc_confidence oc <= 15)%Q.
Proof.
  destruct (get_orientation_top_label_score_times_15
              Samples.clf_sideways "page.png" Samples.opts_eng Samples.fresh_world
              [mkClfResult (Some ["90"; "0"; "270"; "180"])
                           (Some [0.9; 0.06; 0.03; 0.01]%Q)])
    as (oc & Hget & _ & Hlo & Hhi & label & score & Hlabel & Hscore & Hint & Hconf).
  - reflexivity.
  - exists "90", ["0"; "270"; "180"], 0.9%Q, [0.06; 0.03; 0.01]%Q.
    split; [reflexivity|]. split; [reflexivity|].
    split; [right; left|]. split; discriminate.
  - exists oc. split; [exact Hget|].
    injection Hlabel as <-. injection Hscore as <-.
    injection Hint as Hangle.
    split; [by rewrite <- Hangle|]. split; [exact Hconf|]. by split.
Defined.

Lemma get_deskew_median_of_top_edge_angles_witness :
  ∃ skew,
    fst (get_deskew Samples.init_ok Samples.predict_skew Samples.slope_degrees
           "page.png" Samples.opts_eng Samples.fresh_world) = Return skew
    ∧ is_median skew [Samples.slope_degrees (0 - 0) (10 - 0);
                      Samples.slope_degrees (10 - 0) (10 - 0)]
    ∧ (skew == 22.5)%Q.
Proof.
  destruct (get_deskew_median_of_top_edge_angles
              Samples.init_ok Samples.predict_skew Samples.slope_degrees
              "page.png" Samples.opts_eng Samples.fresh_world
              (snd (_get_paddle_engine Samples.init_ok Samples.opts_eng Samples.fresh_world))
              Samples.engine_en [Samples.skew_result] eq_refl eq_refl)
    as (skew & Hget & Hmedian).
  exists skew. rewrite Hget. split; [reflexivity|]. split; [exact Hmedian|].
  injection Hget as <-. reflexivity.
Defined.

(** C10. The read of [text_word_regions[i]] is not guarded.  For a result
    with word-level detail present (both arrays non-empty), tokens for two
    lines and regions for one, line 1 passes the guard on [text_words] and
    [generate_ocr] raises [IndexError]. *)
Theorem generate_ocr_word_regions_index_error :
  word_boxes_present Samples.mismatched_result = true
  ∧ (1 <? length (default [] (text_word Samples.mismatched_result)))%nat = true
  ∧ default [] (text_word Samples.mismatched_result) !! 1%nat = Some ["b"]
  ∧ default [] (text_word_region Samples.mismatched_result) !! 1%nat = None
  ∧ fst (generate_ocr Samples.init_ok Samples.predict_mismatched Samples.page_image
           "page.png" Samples.opts_eng 0 Samples.fresh_world)
    = Raise IndexError.
Proof. repeat split; reflexivity. Qed.

(** ** Evaluations *)

Example quad_to_bbox_rotated :
  _quad_to_bbox Samples.quad_world = Some (BoundingBox.mk 100 10 200 40).
Proof. reflexivity. Qed.

Example quad_to_bbox_flat : _quad_to_bbox Samples.quad_flat = None.
Proof. reflexivity. Qed.

Example line_box_inverted : line_box_to_bbox (200, 10, 10, 40)%Q = None.
Proof. reflexivity. Qed.

Example tesseract_to_paddle_known : tesseract_to_paddle "kor" = "korean".
Proof. reflexivity. Qed.

Example tesseract_to_paddle_passthrough : tesseract_to_paddle "xyz" = "xyz".
Proof. reflexivity. Qed.

Example strip_blank : strip "   " = "".
Proof. reflexivity. Qed.

Example strip_token : strip " Hello " = "Hello".
Proof. reflexivity. Qed.

(** Nine level edges and one outlier: the median stays level. *)
Example median_ignores_one_outlier :
  median [0; 0; 0; 80; 0; 0; 0; 0; 0; 0]%Q = Return ((0 + 0) / 2)%Q.
Proof. reflexivity. Qed.

Example median_odd : median [3; 1; 2]%Q = Return 2%Q.
Proof. reflexivity. Qed.

(** The whole-line fallback of the specification's example. *)
Example generate_ocr_hello_world :
  fst (generate_ocr Samples.init_ok (λ _ _ _ _, Return [Samples.hello_result])
         Samples.page_image "page.png" Samples.opts_eng 0 Samples.fresh_world)
  = Return (Samples.hello_page, "Hello World").
Proof. reflexivity. Qed.

(** An empty result list gives the bare page and the empty text. *)
Example generate_ocr_no_result :
  fst (generate_ocr Samples.init_ok (λ _ _ _ _, Return [])
         Samples.page_image "page.png" Samples.opts_eng 0 Samples.fresh_world)
  = Return (new_page (Samples.page_image "page.png") 0, "").
Proof. reflexivity. Qed.

(** ** Worked instances of the further properties *)

Lemma tesseract_to_paddle_injective_on_supported_witness :
  "eng" ∈ SUPPORTED_LANGUAGES ∧ "kor" ∈ SUPPORTED_LANGUAGES
  ∧ tesseract_to_paddle "eng" ≠ tesseract_to_paddle "kor".
Proof.
  assert (H1 : "eng" ∈ SUPPORTED_LANGUAGES) by (apply elem_of_dom; by exists "en").
  assert (H2 : "kor" ∈ SUPPORTED_LANGUAGES) by (apply elem_of_dom; by exists "korean").
  split; [exact H1|]. split; [exact H2|].
  apply (tesseract_to_paddle_injective_on_supported "eng" "kor" H1 H2). discriminate.
Defined.

Lemma generate_ocr_leaves_other_variables_witness :
  fst (generate_ocr Samples.init_rejects Samples.predict_words Samples.page_image
         "page.png" Samples.opts_xyz 0 Samples.host_world) = Raise ValueError
  ∧ environ (snd (generate_ocr Samples.init_rejects Samples.predict_words
                    Samples.page_image "page.png" Samples.opts_xyz 0 Samples.host_world))
      !! "HOME" = Some "/root".
Proof.
  split; [reflexivity|].
  destruct (generate_ocr_leaves_other_variables
              Samples.init_rejects Samples.predict_words Samples.page_image
              Samples.slope_degrees "page.png" Samples.opts_xyz 0 Samples.host_world "HOME") as [Hgen _].
  - discriminate.
  - rewrite Hgen. reflexivity.
Defined.

Lemma generate_ocr_return_restores_environment_witness :
  environ (snd (generate_ocr Samples.init_ok Samples.predict_stale_once Samples.page_image
                  "page.png" Samples.opts_eng 0 Samples.host_world))
  = environ Samples.host_world.
Proof.
  apply (generate_ocr_return_restores_environment
           Samples.init_ok Samples.predict_stale_once Samples.page_image
           "page.png" Samples.opts_eng 0 Samples.host_world
           (snd (generate_ocr Samples.init_ok Samples.predict_stale_once
                   Samples.page_image "page.png" Samples.opts_eng 0 Samples.host_world))
           Samples.hello_page "Hello World").
  vm_compute. reflexivity.
Defined.

Lemma cache_ok_preserved_witness :
  cache_ok Samples.fresh_world
  ∧ cache_ok (snd (generate_ocr Samples.init_ok Samples.predict_stale_once
                     Samples.page_image "page.png" Samples.opts_eng 0
                     Samples.fresh_world)).
Proof.
  assert (H : cache_ok Samples.fresh_world) by (intros e He; discriminate He).
  split; [exact H|].
  apply (cache_ok_preserved Samples.init_ok Samples.predict_stale_once
           Samples.page_image Samples.slope_degrees "page.png" Samples.opts_eng 0 Samples.fresh_world H).
Defined.

Lemma get_paddle_engine_failed_rebuild_keeps_cache_witness :
  ∃ w',
    _get_paddle_engine Samples.init_rejects Samples.opts_xyz Samples.cached_en_world
      = (Raise ValueError, w')
    ∧ _paddle_engine w' = Some Samples.engine_en
    ∧ _paddle_lang w' = Some "en"
    ∧ _get_paddle_engine Samples.init_rejects Samples.opts_eng w'
      = (Return Samples.engine_en, w').
Proof.
  apply (get_paddle_engine_failed_rebuild_keeps_cache
           Samples.init_rejects Samples.opts_xyz Samples.opts_eng
           Samples.cached_en_world Samples.engine_en ValueError).
  - reflexivity.
  - reflexivity.
  - discriminate.
  - reflexivity.
Defined.

Lemma generate_ocr_other_fault_not_retried_witness :
  fst (generate_ocr Samples.init_ok Samples.predict_out_of_memory Samples.page_image
         "page.png" Samples.opts_eng 0 Samples.fresh_world)
    = Raise (OtherException "MemoryError")
  ∧ predictions (snd (generate_ocr Samples.init_ok Samples.predict_out_of_memory
                        Samples.page_image "page.png" Samples.opts_eng 0
                        Samples.fresh_world)) = 1%nat.
Proof.
  rewrite (generate_ocr_other_fault_not_retried
             Samples.init_ok Samples.predict_out_of_memory Samples.page_image
             "page.png" Samples.opts_eng 0 Samples.fresh_world
             (snd (_get_paddle_engine Samples.init_ok Samples.opts_eng Samples.fresh_world))
             Samples.engine_en (OtherException "MemoryError")).
  - split; reflexivity.
  - reflexivity.
  - reflexivity.
  - discriminate.
  - discriminate.
Defined.

Lemma construction_failure_stops_before_predict_witness :
  fst (generate_ocr Samples.init_rejects Samples.predict_words Samples.page_image
         "page.png" Samples.opts_xyz 0 Samples.fresh_world) = Raise ValueError
  ∧ predictions (snd (generate_ocr Samples.init_rejects Samples.predict_words
                        Samples.page_image "page.png" Samples.opts_xyz 0
                        Samples.fresh_world)) = 0%nat.
Proof.
  destruct (construction_failure_stops_before_predict
              Samples.init_rejects Samples.predict_words Samples.page_image
              Samples.slope_degrees
              "page.png" Samples.opts_xyz 0 Samples.fresh_world ValueError)
    as [Hgen _].
  - by intros [[? [=]] _].
  - reflexivity.
  - rewrite Hgen. split; reflexivity.
Defined.

Lemma get_deskew_fault_not_retried_witness :
  fst (get_deskew Samples.init_ok Samples.predict_stale Samples.slope_degrees
         "page.png" Samples.opts_eng Samples.fresh_world) = Raise RuntimeError
  ∧ _paddle_engine (snd (get_deskew Samples.init_ok Samples.predict_stale
                           Samples.slope_degrees "page.png" Samples.opts_eng
                           Samples.fresh_world)) = Some Samples.engine_en.
Proof.
  rewrite (get_deskew_fault_not_retried
             Samples.init_ok Samples.predict_stale Samples.slope_degrees
             "page.png" Samples.opts_eng Samples.fresh_world
             (snd (_get_paddle_engine Samples.init_ok Samples.opts_eng Samples.fresh_world))
             Samples.engine_en RuntimeError eq_refl eq_refl).
  split; reflexivity.
Defined.

Lemma generate_ocr_tree_well_formed_witness :
  Forall line_ok (children Samples.words_page).
Proof.
  apply (generate_ocr_tree_well_formed
           Samples.init_ok Samples.predict_words Samples.page_image
           "page.png" Samples.opts_eng 0 Samples.fresh_world
           (snd (generate_ocr Samples.init_ok Samples.predict_words Samples.page_image
                   "page.png" Samples.opts_eng 0 Samples.fresh_world))
           Samples.words_page "Hello World").
  reflexivity.
Defined.

Lemma generate_ocr_text_matches_lines_witness :
  "Hello World" = "" ↔ children Samples.words_page = [].
Proof.
  apply (generate_ocr_text_matches_lines
           Samples.init_ok Samples.predict_words Samples.page_image
           "page.png" Samples.opts_eng 0 Samples.fresh_world
           (snd (generate_ocr Samples.init_ok Samples.predict_words Samples.page_image
                   "page.png" Samples.opts_eng 0 Samples.fresh_world))
           Samples.words_page "Hello World").
  reflexivity.
Defined.

Lemma assemble_line_count_bounded_witness :
  (length (children Samples.words_page) ≤ 0 + 3)%nat.
Proof.
  apply (assemble_line_count_bounded
           (new_page (Samples.page_image "page.png") 0) Samples.words_page
           Samples.words_result [] "Hello World").
  reflexivity.
Defined.

Lemma median_between_extremes_witness :
  ∃ m, median [1; 3; 2]%Q = Return m ∧ (1 <= m)%Q ∧ (m <= 3)%Q.
Proof.
  apply (median_between_extremes [1; 3; 2]%Q 1 3).
  - discriminate.
  - repeat constructor; discriminate.
Defined.

Lemma median_of_majority_witness :
  ∃ m, median [0; 0; 0; 80; 0; 0; 0; 0; 0; 0]%Q = Return m ∧ (m == 0)%Q.
Proof.
  apply (median_of_majority [0; 0; 0; 80; 0; 0; 0; 0; 0; 0]%Q 0).
  vm_compute. lia.
Defined.

Lemma quad_of_rectangle_is_line_box_witness :
  _quad_to_bbox ((10, 10), (200, 10), (200, 40), (10, 40))%Q
    = Some (BoundingBox.mk 10 10 200 40)
  ∧ line_box_to_bbox (10, 10, 200, 40)%Q = Some (BoundingBox.mk 10 10 200 40).
Proof. apply (quad_of_rectangle_is_line_box 10 10 200 40); reflexivity. Defined.


Example py_int_label : py_int "270" = Return 270%Z.
Proof. reflexivity. Qed.

Example py_int_blanks_and_sign : py_int "  -1_0 " = Return (-10)%Z.
Proof. reflexivity. Qed.

(** [int()] does not skip the unit separator that [str.strip] removes. *)
Example py_int_unit_separator :
  py_int (String (ascii_of_nat 31) "90") = Raise ValueError.
Proof. reflexivity. Qed.

Example py_int_double_underscore : py_int "1__0" = Raise ValueError.
Proof. reflexivity. Qed.

Example py_int_empty : py_int "" = Raise ValueError.
Proof. reflexivity. Qed.

(** ** Worked instances of the line and word properties *)

Lemma words_result_no_fault :
  ¬ Exists (line_faults Samples.words_result) (recognised_lines Samples.words_result).
Proof.
  intros (entry & Hin & Hfault)%Exists_exists.
  repeat (apply elem_of_cons in Hin as [->|Hin]);
    [destruct Hfault as (_ & _ & tokens & [=])..|by apply elem_of_nil in Hin].
Defined.

Lemma generate_ocr_attaches_lines_with_words_witness :
  ∃ lines,
    generate_ocr Samples.init_ok Samples.predict_words Samples.page_image
                 "page.png" Samples.opts_eng 0 Samples.fresh_world
    = (Return (add_children (new_page (Samples.page_image "page.png") 0) lines,
               "Hello World"),
       snd (generate_ocr Samples.init_ok Samples.predict_words Samples.page_image
              "page.png" Samples.opts_eng 0 Samples.fresh_world))
    ∧ Forall2 line_for [(0%nat, ("Hello World", 0.98%Q, (10, 10, 200, 40)%Q))] lines.
Proof.
  destruct (generate_ocr_attaches_lines_with_words
              Samples.init_ok Samples.predict_words Samples.page_image
              "page.png" Samples.opts_eng 0 Samples.fresh_world
              (snd (_get_paddle_engine Samples.init_ok Samples.opts_eng Samples.fresh_world))
              (snd (generate_ocr Samples.init_ok Samples.predict_words Samples.page_image
                      "page.png" Samples.opts_eng 0 Samples.fresh_world))
              Samples.engine_en [Samples.words_result] eq_refl eq_refl)
    as [_ Hreturn].
  destruct (Hreturn words_result_no_fault) as (lines & Hgen & Hlines).
  exists lines. split; [exact Hgen|exact Hlines].
Defined.

Lemma generate_ocr_words_inherit_line_score_witness :
  ∃ lines full_text,
    generate_ocr Samples.init_ok Samples.predict_words Samples.page_image
                 "page.png" Samples.opts_eng 0 Samples.fresh_world
    = (Return (add_children (new_page (Samples.page_image "page.png") 0) lines,
               full_text),
       snd (generate_ocr Samples.init_ok Samples.predict_words Samples.page_image
              "page.png" Samples.opts_eng 0 Samples.fresh_world))
    ∧ Forall2 (λ entry line, line_words Samples.words_result entry (children line))
              [(0%nat, ("Hello World", 0.98%Q, (10, 10, 200, 40)%Q))] lines.
Proof.
  apply (generate_ocr_words_inherit_line_score
           Samples.init_ok Samples.predict_words Samples.page_image
           "page.png" Samples.opts_eng 0 Samples.fresh_world
           (snd (_get_paddle_engine Samples.init_ok Samples.opts_eng Samples.fresh_world))
           (snd (generate_ocr Samples.init_ok Samples.predict_words Samples.page_image
                   "page.png" Samples.opts_eng 0 Samples.fresh_world))
           Samples.engine_en Samples.words_result [] eq_refl eq_refl
           words_result_no_fault).
Defined.

Lemma line_without_valid_word_dropped_witness :
  line_loop (word_boxes_present Samples.no_word_result)
            (default [] (text_word Samples.no_word_result))
            (default [] (text_word_region Samples.no_word_result))
            0 [("x", 0.9%Q, (10, 10, 200, 40)%Q)]
            (new_page (Samples.page_image "page.png") 0) []
  = Return (new_page (Samples.page_image "page.png") 0, []).
Proof.
  rewrite (line_without_valid_word_dropped Samples.no_word_result 0
             [" "; "x"] [Samples.quad_hello; Samples.quad_flat]).
  - reflexivity.
  - reflexivity.
  - constructor.
    + intros [Hblank _]. apply Hblank. repeat constructor.
    + constructor; [|constructor].
      intros [_ [_ Hy]]. apply Exists_exists in Hy as (y & Hy & Hy').
      apply Exists_exists in Hy' as (y' & Hy' & Hlt).
      cbn in Hy, Hy'.
      repeat (apply elem_of_cons in Hy as [->|Hy]);
        repeat (apply elem_of_cons in Hy' as [->|Hy']);
        try (by apply elem_of_nil in Hy); try (by apply elem_of_nil in Hy');
        by apply Qlt_irrefl in Hlt.
Defined.
